(** * Writer Assist: a shallow embedding of [src/main.ts]

    The plugin is glue code over the Obsidian host: four editor commands, a
    settings tab, and a few string helpers.  The embedding follows the source
    function by function.  JavaScript strings are sequences of UTF-16 code
    units, arrays are lists, [T | null] is [option T], and the code that
    talks to the host (editor, vault, modals, notices) is written in a small
    state monad over an explicit [World]. *)

From Stdlib Require Import String Ascii.
From Stdlib Require Import List NArith ZArith Arith Bool Lia.
Import ListNotations.

(* ================================================================= *)
(** ** JavaScript strings *)

Module JsString.

(** A string is the list of its UTF-16 code units. *)
Definition t : Type := list N.

(** An ASCII literal of the source. *)
Definition lit (s : string) : t := map N_of_ascii (list_ascii_of_string s).

Fixpoint eqb (a b : t) : bool :=
  match a, b with
  | [], [] => true
  | x :: a', y :: b' => N.eqb x y && eqb a' b'
  | _, _ => false
  end.

(** Truthiness of a string: every string but the empty one. *)
Definition truthy (s : t) : bool :=
  match s with [] => false | _ :: _ => true end.

(** Truthiness of [string | null | undefined]. *)
Definition truthy_opt (o : option t) : bool :=
  match o with Some s => truthy s | None => false end.

(** [s.substring(a, b)] for non-negative arguments: both ends are clamped
    to the length and swapped when out of order. *)
Definition substring (s : t) (a b : nat) : t :=
  let a' := Nat.min a (length s) in
  let b' := Nat.min b (length s) in
  let lo := Nat.min a' b' in
  let hi := Nat.max a' b' in
  firstn (hi - lo) (skipn lo s).

(** An index argument of [slice]: negative counts from the end. *)
Definition sliceIndex (len : nat) (k : Z) : nat :=
  if (k <? 0)%Z then Z.to_nat (Z.max (Z.of_nat len + k) 0)
  else Nat.min (Z.to_nat k) len.

(** [s.slice(a, b)]. *)
Definition slice (s : t) (a b : Z) : t :=
  let from := sliceIndex (length s) a in
  let to := sliceIndex (length s) b in
  firstn (to - from) (skipn from s).

Fixpoint startsWith (s q : t) {struct q} : bool :=
  match q, s with
  | [], _ => true
  | y :: q', x :: s' => N.eqb x y && startsWith s' q'
  | _ :: _, [] => false
  end.

(** [s.contains(q)], Obsidian's alias of [s.includes(q)]. *)
Fixpoint contains (s q : t) : bool :=
  startsWith s q ||
  match s with
  | [] => false
  | _ :: s' => contains s' q
  end.

(** The class [\s] of a regular expression without the [u] flag, which is
    also the set [trim], [trimStart] and [trimEnd] remove: WhiteSpace and
    LineTerminator of ECMAScript. *)
Definition isWhiteSpace (c : N) : bool :=
  ((9 <=? c) && (c <=? 13)          (* TAB LF VT FF CR *)
   || (c =? 32) || (c =? 160)       (* SP NBSP *)
   || (c =? 5760)                   (* U+1680 *)
   || ((8192 <=? c) && (c <=? 8202))  (* U+2000 .. U+200A *)
   || (c =? 8232) || (c =? 8233)    (* LS PS *)
   || (c =? 8239) || (c =? 8287)    (* U+202F U+205F *)
   || (c =? 12288) || (c =? 65279))%N. (* U+3000 U+FEFF *)

Fixpoint trimStart (s : t) : t :=
  match s with
  | [] => []
  | c :: s' => if isWhiteSpace c then trimStart s' else s
  end.

(** [trimEnd] drops the longest suffix of white space. *)
Fixpoint trimEnd (s : t) : t :=
  match s with
  | [] => []
  | c :: s' =>
      match trimEnd s' with
      | [] => if isWhiteSpace c then [] else [c]
      | r => c :: r
      end
  end.

Definition trim (s : t) : t := trimEnd (trimStart s).

End JsString.

Abbreviation jstr := JsString.t.
Notation "'js' s" := (JsString.lit s%string) (at level 9, s at level 0, only parsing).

(* ================================================================= *)
(** ** Notes and the vault (host objects the source reads) *)

(** The fields of Obsidian's [TFile] the plugin reads, and its extension. *)
Record TFile : Type := mkTFile {
  path : jstr;
  basename : jstr;
  extension : jstr
}.

(** The host keeps one [TFile] object per path, so the reference comparison
    [targetNote != view.file] of the source is a comparison of paths. *)
Definition sameFile (a b : TFile) : bool := JsString.eqb (path a) (path b).

(** The vault: its files, in index order, each with its content. *)
Record Vault : Type := mkVault {
  entries : list (TFile * jstr)
}.

Definition getFiles (v : Vault) : list TFile := map fst (entries v).

Definition getMarkdownFiles (v : Vault) : list TFile :=
  filter (fun f => JsString.eqb (extension f) (js "md")) (getFiles v).

Definition getFileByPath (v : Vault) (p : jstr) : option TFile :=
  find (fun f => JsString.eqb (path f) p) (getFiles v).

(** [vault.process(file, fn)]: the content of [file] becomes [fn content]. *)
Definition process (v : Vault) (file : TFile) (fn : jstr -> jstr) : Vault :=
  mkVault (map (fun e => if sameFile (fst e) file then (fst e, fn (snd e)) else e)
               (entries v)).

(* ================================================================= *)
(** ** Path shortener: [shortenNotePath] (lines 231-245) *)

(** The body of the loop, from index [i] on, with [count] matches so far. *)
Fixpoint shortenNotePath_loop (note : TFile) (allNotes : list TFile) (count : nat) : jstr :=
  match allNotes with
  | [] => basename note
  | f :: rest =>
      let count' := if JsString.eqb (basename f) (basename note) then S count else count in
      if 1 <? count' then JsString.slice (path note) 0 (-3)
      else shortenNotePath_loop note rest count'
  end.

Definition shortenNotePath (note : TFile) (vault : Vault) : jstr :=
  shortenNotePath_loop note (getMarkdownFiles vault) 0.

(* ================================================================= *)
(** ** Section ID generator: [randomSectionId] (lines 247-249) *)

(** The digits of radix 36, as [Number.prototype.toString(36)] prints them. *)
Definition base36Alphabet : jstr := js "0123456789abcdefghijklmnopqrstuvwxyz".

Definition base36Digit (d : nat) : N := nth d base36Alphabet 48%N.

(** A value of [Math.random()] is a number in [0, 1).  It is given here by
    the digits after the radix point that [toString(36)] prints for it (each
    below 36, none for the value 0): floating point itself is not modelled. *)
Definition RandomValue : Type := list nat.

Definition validRandomValue (r : RandomValue) : Prop := Forall (fun d => d < 36) r.

(** [r.toString(36)]: ["0"] for zero, else ["0."] and the digits. *)
Definition toString36 (r : RandomValue) : jstr :=
  match r with
  | [] => js "0"
  | _ :: _ => js "0." ++ map base36Digit r
  end.

Definition randomSectionId (r : RandomValue) : jstr :=
  JsString.substring (toString36 r) 2 8.

(* ================================================================= *)
(** ** Section ID normalization (lines 141-146) *)

Definition underscore : N := 95.
Definition hyphen : N := 45.

(** The class [[\s_]]. *)
Definition isSpaceOrUnderscore (c : N) : bool :=
  JsString.isWhiteSpace c || (c =? underscore)%N.

(** The class [[a-zA-Z0-9-]]. *)
Definition isIdChar (c : N) : bool :=
  ((97 <=? c) && (c <=? 122) || (65 <=? c) && (c <=? 90)
   || (48 <=? c) && (c <=? 57) || (c =? hyphen))%N.

(** [s.replace(/[\s_]+/g, "-")]: a left-to-right scan; [inRun] tells that
    the previous code unit belonged to the run being replaced. *)
Fixpoint replaceRuns (inRun : bool) (s : jstr) : jstr :=
  match s with
  | [] => []
  | c :: s' =>
      if isSpaceOrUnderscore c
      then (if inRun then replaceRuns true s' else hyphen :: replaceRuns true s')
      else c :: replaceRuns false s'
  end.

(** [s.replace(/[^a-zA-Z0-9-]/g, "")]. *)
Definition stripNonId (s : jstr) : jstr := filter isIdChar s.

Definition normalizeSectionId (s : jstr) : jstr :=
  stripNonId (replaceRuns false (JsString.trim s)).

(* ================================================================= *)
(** ** Character pools: [CharacterPool], [getActiveCharNotes] (lines 251-285) *)

Record CharacterPool : Type := mkCharacterPool {
  name : jstr;
  charNotes : list jstr;
  isEnabled : bool
}.

(** A JavaScript array of strings that may have holes. *)
Definition JsArray : Type := list (option jstr).

(** [new Array(n)]. *)
Definition newArray (n : nat) : JsArray := repeat None n.

(** [a[i] = x]: an assignment past the end extends the array with holes. *)
Fixpoint arraySet (a : JsArray) (i : nat) (x : jstr) : JsArray :=
  match i, a with
  | 0, [] => [Some x]
  | 0, _ :: a' => Some x :: a'
  | S i', [] => None :: arraySet [] i' x
  | S i', y :: a' => y :: arraySet a' i' x
  end.

(** First loop (lines 262-265). *)
Fixpoint countActive (pools : list CharacterPool) (activeCharCount : nat) : nat :=
  match pools with
  | [] => activeCharCount
  | pool :: rest =>
      countActive rest
        (if isEnabled pool then activeCharCount + length (charNotes pool)
         else activeCharCount)
  end.

(** Inner loop (lines 279-280): [activeCharNotes[index++] = charNotes[j]]. *)
Fixpoint copyNotes (charNotes : list jstr) (st : JsArray * nat) : JsArray * nat :=
  match charNotes with
  | [] => st
  | c :: rest => copyNotes rest (arraySet (fst st) (snd st) c, S (snd st))
  end.

(** Outer loop (lines 273-282). *)
Fixpoint fillActive (pools : list CharacterPool) (st : JsArray * nat) : JsArray * nat :=
  match pools with
  | [] => st
  | pool :: rest =>
      fillActive rest (if isEnabled pool then copyNotes (charNotes pool) st else st)
  end.

(** The array the function returns. *)
Definition getActiveCharNotes_array (pools : list CharacterPool) : JsArray :=
  let activeCharCount := countActive pools 0 in
  if activeCharCount =? 0 then []
  else fst (fillActive pools (newArray activeCharCount, 0)).

(** The strings of an array, holes left out. *)
Definition definedElements (a : JsArray) : list jstr :=
  flat_map (fun o => match o with Some s => [s] | None => [] end) a.

Definition getActiveCharNotes (pools : list CharacterPool) : list jstr :=
  definedElements (getActiveCharNotes_array pools).

(* ================================================================= *)
(** ** Settings (lines 287-301) *)

Record WriterAssistSettings : Type := mkSettings {
  sectionNotes : list jstr;
  sectionSeparator : jstr;
  characterPools : list CharacterPool
}.

Definition LF : jstr := [10%N].

Definition DEFAULT_SETTINGS : WriterAssistSettings :=
  {| sectionNotes := [js "Test Note"];
     sectionSeparator := LF ++ LF ++ js "---" ++ LF;
     characterPools := [mkCharacterPool (js "Test Pool") [js "Test Note"] true] |}.

(** What [loadData()] finds: [null], or an object that has some of the
    fields. *)
Record StoredData : Type := mkStored {
  stored_sectionNotes : option (list jstr);
  stored_sectionSeparator : option jstr;
  stored_characterPools : option (list CharacterPool)
}.

Definition orElse {A : Type} (o : option A) (d : A) : A :=
  match o with Some x => x | None => d end.

(** [Object.assign({}, DEFAULT_SETTINGS, data)] (line 186). *)
Definition mergeSettings (data : option StoredData) : WriterAssistSettings :=
  match data with
  | None => DEFAULT_SETTINGS
  | Some d =>
      {| sectionNotes := orElse (stored_sectionNotes d) (sectionNotes DEFAULT_SETTINGS);
         sectionSeparator := orElse (stored_sectionSeparator d) (sectionSeparator DEFAULT_SETTINGS);
         characterPools := orElse (stored_characterPools d) (characterPools DEFAULT_SETTINGS) |}
  end.

(** [saveData(settings)] writes every field. *)
Definition storeSettings (s : WriterAssistSettings) : StoredData :=
  {| stored_sectionNotes := Some (sectionNotes s);
     stored_sectionSeparator := Some (sectionSeparator s);
     stored_characterPools := Some (characterPools s) |}.

(* ================================================================= *)
(** ** The host: editor, runtime, user *)

Record EditorPosition : Type := mkPos { line : Z; ch : Z }.

(** What the plugin takes from the host and is not in the repository: the
    editor of the active view, and [String.prototype.toLowerCase]. *)
Class Host : Type := {
  Editor : Type;
  getSelection : Editor -> jstr;
  getCursor : Editor -> EditorPosition;
  replaceSelection : jstr -> Editor -> Editor;
  replaceRange : jstr -> EditorPosition -> Editor -> Editor;
  setCursor : EditorPosition -> Editor -> Editor;
  setSelection : EditorPosition -> EditorPosition -> Editor -> Editor;
  focus : Editor -> Editor;
  toLowerCase : jstr -> jstr
}.

(** What the user sees happen, in order. *)
Inductive UiEvent : Type :=
| Notice (message : jstr)
| OpenTextSuggest (placeholder : jstr) (suggestions : list jstr)
| OpenNoteSuggest (placeholder : jstr) (suggestions : list TFile)
| OpenPrompt (title placeholder : jstr)
| OpenConfirm (title message : jstr).

Definition isPromptEvent (e : UiEvent) : bool :=
  match e with Notice _ => false | _ => true end.

(** The user, as the answers to the modals.  In a suggestion modal the user
    types a query and picks a row of what the modal then lists, or closes
    the modal ([None]).  In a text prompt the answer is the last value the
    input had, [None] when nothing was ever typed.  In a confirmation it is
    the button clicked, [None] when the modal was closed otherwise. *)
Record User : Type := mkUser {
  chooseText : jstr -> list jstr -> option (jstr * nat);
  chooseNote : jstr -> list TFile -> option (jstr * nat);
  answerPrompt : jstr -> jstr -> option jstr;
  answerConfirm : jstr -> jstr -> option bool
}.

Section Plugin.

Context {host : Host}.

(* ================================================================= *)
(** ** Suggestion filtering (lines 659-669 and 684-694) *)

Definition suggestionLimit : nat := 1000.

(** The loop both [getSuggestions] share, [text] being what is matched:
    [for (let i = ...; i < bound; i++)] with [remaining = bound - i].  The
    read [suggestions[i]] is in range whenever [bound <= length]. *)
Fixpoint getSuggestions_loop {T : Type} (text : T -> jstr) (suggestions : list T)
    (query : jstr) (remaining i : nat) (filtered : list T) : list T :=
  match remaining with
  | 0 => filtered
  | S remaining' =>
      match nth_error suggestions i with
      | Some s =>
          getSuggestions_loop text suggestions query remaining' (S i)
            (if JsString.contains (toLowerCase (text s)) query
             then filtered ++ [s] else filtered)
      | None => filtered
      end
  end.

Definition TextSuggestModal_getSuggestions (suggestions : list jstr) (query : jstr) : list jstr :=
  let query := toLowerCase query in
  getSuggestions_loop (fun s => s) suggestions query
    (Nat.min (length suggestions) suggestionLimit) 0 [].

Definition NoteSuggestModal_getSuggestions (suggestions : list TFile) (query : jstr) : list TFile :=
  let query := toLowerCase query in
  getSuggestions_loop path suggestions query
    (Nat.min (length suggestions) suggestionLimit) 0 [].

(* ================================================================= *)
(** ** The world and the monad of the handlers *)

Record World : Type := mkWorld {
  editor : Editor;                  (* the [editor] argument *)
  viewFile : option TFile;          (* [view.file] *)
  vault : Vault;                    (* [this.app.vault] *)
  settings : WriterAssistSettings;  (* [this.settings] *)
  dataFile : option StoredData;     (* what [loadData()] returns *)
  uiLog : list UiEvent;
  randomCalls : nat                 (* calls of [Math.random()] so far *)
}.

Record Env : Type := mkEnv {
  user : User;
  random : nat -> RandomValue       (* the values [Math.random()] returns *)
}.

Definition M (A : Type) : Type := Env -> World -> A * World.

Definition ret {A : Type} (a : A) : M A := fun _ w => (a, w).

Definition bind {A B : Type} (m : M A) (k : A -> M B) : M B :=
  fun env w => let (a, w') := m env w in k a env w'.

Definition run {A : Type} (m : M A) (env : Env) (w : World) : World := snd (m env w).

End Plugin.

Notation "x <- m ;; k" := (bind m (fun x => k))
  (at level 61, m at next level, right associativity).
Notation "m ;; k" := (bind m (fun _ => k))
  (at level 61, right associativity).

Section Handlers.

Context {host : Host}.

(** *** Primitive effects *)

Definition getWorld : M World := fun _ w => (w, w).

Definition logEvent (e : UiEvent) : M unit :=
  fun _ w => (tt, mkWorld (editor w) (viewFile w) (vault w) (settings w) (dataFile w)
                          (uiLog w ++ [e]) (randomCalls w)).

(** [new Notice(message)]. *)
Definition notice (message : jstr) : M unit := logEvent (Notice message).

(** A call of an [editor] method that changes the editor. *)
Definition editorDo (f : Editor -> Editor) : M unit :=
  fun _ w => (tt, mkWorld (f (editor w)) (viewFile w) (vault w) (settings w) (dataFile w)
                          (uiLog w) (randomCalls w)).

Definition setVault (v : Vault) : M unit :=
  fun _ w => (tt, mkWorld (editor w) (viewFile w) v (settings w) (dataFile w)
                          (uiLog w) (randomCalls w)).

Definition setSettings (s : WriterAssistSettings) : M unit :=
  fun _ w => (tt, mkWorld (editor w) (viewFile w) (vault w) s (dataFile w)
                          (uiLog w) (randomCalls w)).

(** [Math.random()]. *)
Definition mathRandom : M RandomValue :=
  fun env w => (random env (randomCalls w),
                mkWorld (editor w) (viewFile w) (vault w) (settings w) (dataFile w)
                        (uiLog w) (S (randomCalls w))).

(** [loadSettings] (lines 185-187) and [saveSettings] (lines 189-191). *)
Definition loadSettings : M unit :=
  w <- getWorld ;; setSettings (mergeSettings (dataFile w)).

Definition saveSettings : M unit :=
  fun _ w => (tt, mkWorld (editor w) (viewFile w) (vault w) (settings w)
                          (Some (storeSettings (settings w))) (uiLog w) (randomCalls w)).

(** *** The modals (lines 303-404 and 615-699) *)

Definition defaultTextPlaceholder : jstr := js "Type to search...".
Definition defaultNotePlaceholder : jstr := js "Type to search for a note...".
Definition defaultPromptPlaceholder : jstr := js "Type response here...".

(** What a suggestion modal resolves with: the row the user picks among
    [getSuggestions(query)], [null] when the modal is closed or no such row
    is listed. *)
Definition textSelection (u : User) (placeholder : jstr) (suggestions : list jstr)
    : option jstr :=
  match chooseText u placeholder suggestions with
  | Some (query, row) => nth_error (TextSuggestModal_getSuggestions suggestions query) row
  | None => None
  end.

Definition noteSelection (u : User) (placeholder : jstr) (suggestions : list TFile)
    : option TFile :=
  match chooseNote u placeholder suggestions with
  | Some (query, row) => nth_error (NoteSuggestModal_getSuggestions suggestions query) row
  | None => None
  end.

(** [new TextSuggestModal(app, suggestions, placeholder).awaitSelection()]. *)
Definition TextSuggestModal_awaitSelection (suggestions : list jstr) (placeholder : jstr)
    : M (option jstr) :=
  logEvent (OpenTextSuggest placeholder suggestions) ;;
  fun env w => (textSelection (user env) placeholder suggestions, w).

(** [new NoteSuggestModal(app, placeholder).awaitSelection()]: the
    suggestions are [app.vault.getMarkdownFiles()] (line 681). *)
Definition NoteSuggestModal_awaitSelection (placeholder : jstr) : M (option TFile) :=
  w <- getWorld ;;
  let suggestions := getMarkdownFiles (vault w) in
  logEvent (OpenNoteSuggest placeholder suggestions) ;;
  fun env w => (noteSelection (user env) placeholder suggestions, w).

(** [new PromptModal(app, title, placeholder).awaitSelection()]: resolves
    with [this.response] however the modal was closed. *)
Definition PromptModal_awaitSelection (title placeholder : jstr) : M (option jstr) :=
  logEvent (OpenPrompt title placeholder) ;;
  fun env w => (answerPrompt (user env) title placeholder, w).

(** [new ConfirmModal(app, title, message).awaitConfirmation()]. *)
Definition ConfirmModal_awaitConfirmation (title message : jstr) : M (option bool) :=
  logEvent (OpenConfirm title message) ;;
  fun env w => (answerConfirm (user env) title message, w).

(** *** [promptForAlias] (lines 194-200), [promptForCharacter] (lines 202-229) *)

(** The texts of the four prompts of the commands. *)
Definition aliasTitle : jstr := js "Enter character alias (leave blank for note name):".
Definition characterPlaceholder : jstr := js "Which character to reference?".
Definition targetPlaceholder : jstr := js "Append to which note?".
Definition sectionIdTitle : jstr := js "Enter section ID (leave blank for random):".

Definition promptForAlias (charNote : TFile) : M (option jstr) :=
  PromptModal_awaitSelection aliasTitle (basename charNote).

Definition promptForCharacter (pools : list CharacterPool) : M (option TFile) :=
  let activeCharNotes := getActiveCharNotes pools in
  if length activeCharNotes =? 0 then
    notice (js "No active characters to reference.") ;; ret None
  else
    selectedCharNote <- TextSuggestModal_awaitSelection activeCharNotes
                          characterPlaceholder ;;
    match selectedCharNote with
    | Some selected =>
        if JsString.truthy selected then
          w <- getWorld ;;
          match getFileByPath (vault w) selected with
          | Some targetNote => ret (Some targetNote)
          | None => notice (js "Note not found.") ;; ret None
          end
        else notice (js "No character selected.") ;; ret None
    | None => notice (js "No character selected.") ;; ret None
    end.

(** *** Link markup (lines 75-77, 98-102, 154) *)

(** [alias ? `[[${shortNotePath}|${alias}]]` : `[[${shortNotePath}]]`]. *)
Definition characterLink (shortNotePath : jstr) (alias : option jstr) : jstr :=
  match alias with
  | Some a =>
      if JsString.truthy a then js "[[" ++ shortNotePath ++ js "|" ++ a ++ js "]]"
      else js "[[" ++ shortNotePath ++ js "]]"
  | None => js "[[" ++ shortNotePath ++ js "]]"
  end.

(** [`[[${shortNotePath}#^${sectionId}|${selection}]]`]. *)
Definition sectionLink (shortNotePath sectionId selection : jstr) : jstr :=
  js "[[" ++ shortNotePath ++ js "#^" ++ sectionId ++ js "|" ++ selection ++ js "]]".

Definition quote : jstr := [34%N].

(** ['<span class="center-align">(...)</span>'], the dots being U+2026. *)
Definition ellipsisHtml : jstr :=
  js "<span class=" ++ quote ++ js "center-align" ++ quote ++ js ">("
     ++ [8230%N] ++ js ")</span>".

(** The block of line 79; the two quotes at its end are U+201C, U+201D. *)
Definition dialogBlock (link : jstr) : jstr :=
  js "> <span class=" ++ quote ++ js "left-align" ++ quote ++ js ">" ++ link
     ++ js "</span>" ++ LF ++ js "> " ++ [8220%N; 8221%N].

(** *** The commands (lines 54-179) *)

Definition addDramaticEllipsis : M unit :=
  let html := ellipsisHtml in
  w <- getWorld ;;
  editorDo (replaceRange html (getCursor (editor w))) ;;
  editorDo focus ;;
  w <- getWorld ;;
  let editorPos := getCursor (editor w) in
  editorDo (setCursor (mkPos (line editorPos) (ch editorPos + Z.of_nat (length html)))).

Definition addCharacterDiag : M unit :=
  w <- getWorld ;;
  targetNote <- promptForCharacter (characterPools (settings w)) ;;
  match targetNote with
  | None => ret tt
  | Some targetNote =>
      alias <- promptForAlias targetNote ;;
      w <- getWorld ;;
      let shortNotePath := shortenNotePath targetNote (vault w) in
      let link := characterLink shortNotePath alias in
      editorDo (replaceRange (dialogBlock link) (getCursor (editor w))) ;;
      editorDo focus ;;
      w <- getWorld ;;
      let editorPos := getCursor (editor w) in
      editorDo (setCursor (mkPos (line editorPos + 1) (ch editorPos - 1)))
  end.

Definition addCharacterReference : M unit :=
  w <- getWorld ;;
  targetNote <- promptForCharacter (characterPools (settings w)) ;;
  match targetNote with
  | None => ret tt
  | Some targetNote =>
      alias <- promptForAlias targetNote ;;
      w <- getWorld ;;
      let shortNotePath := shortenNotePath targetNote (vault w) in
      editorDo (replaceSelection (characterLink shortNotePath alias)) ;;
      editorDo focus
  end.

(** Lines 141-149: the ID typed is normalized when it is truthy, and a
    falsy ID, typed or normalized, is replaced by a random one. *)
Definition resolveSectionId (typed : option jstr) : M jstr :=
  let sectionId :=
    match typed with
    | Some s => if JsString.truthy s then Some (normalizeSectionId s) else typed
    | None => None
    end in
  match sectionId with
  | Some s =>
      if JsString.truthy s then ret s
      else r <- mathRandom ;; ret (randomSectionId r)
  | None => r <- mathRandom ;; ret (randomSectionId r)
  end.

(** [targetNote != view.file]. *)
Definition notViewFile (targetNote : TFile) (file : option TFile) : bool :=
  match file with
  | Some f => negb (sameFile targetNote f)
  | None => true
  end.

(** The function handed to [vault.process] (lines 170-178). *)
Definition appendSection (targetNote : TFile) (file : option TFile)
    (sectionSeparator selection sectionId : jstr) (content : jstr) : jstr :=
  let content := if notViewFile targetNote file then JsString.trimEnd content else content in
  if negb (JsString.truthy content) then
    selection ++ js " ^" ++ sectionId ++ LF
  else
    content ++ sectionSeparator ++ selection ++ js " ^" ++ sectionId ++ LF.

(** Lines 131-178, once [targetNote] is assigned. *)
Definition addSectionWikilink_to (targetNote : option TFile) : M unit :=
  match targetNote with
  | None => notice (js "Note not found.")
  | Some targetNote =>
      typed <- PromptModal_awaitSelection sectionIdTitle defaultPromptPlaceholder ;;
      sectionId <- resolveSectionId typed ;;
      w <- getWorld ;;
      let selection :=
        if JsString.truthy (getSelection (editor w)) then getSelection (editor w)
        else js "Replace this" in
      let shortNotePath := shortenNotePath targetNote (vault w) in
      let link := sectionLink shortNotePath sectionId selection in
      editorDo (replaceSelection link) ;;
      editorDo focus ;;
      w <- getWorld ;;
      let editorPos := getCursor (editor w) in
      editorDo (setSelection
                  (mkPos (line editorPos) (ch editorPos - Z.of_nat (length selection) - 2))
                  (mkPos (line editorPos) (ch editorPos - 2))) ;;
      w <- getWorld ;;
      setVault (process (vault w) targetNote
                  (appendSection targetNote (viewFile w)
                     (sectionSeparator (settings w)) selection sectionId))
  end.

Definition addSectionWikilink : M unit :=
  w <- getWorld ;;
  if length (sectionNotes (settings w)) =? 0 then
    targetNote <- NoteSuggestModal_awaitSelection targetPlaceholder ;;
    addSectionWikilink_to targetNote
  else
    selectedNote <- TextSuggestModal_awaitSelection (sectionNotes (settings w))
                      targetPlaceholder ;;
    match selectedNote with
    | Some selected =>
        if JsString.truthy selected then
          w <- getWorld ;;
          addSectionWikilink_to (getFileByPath (vault w) selected)
        else notice (js "No note selected.")
    | None => notice (js "No note selected.")
    end.

(* ================================================================= *)
(** ** The settings tab (lines 406-613) *)

(** [a.splice(i, 1)]. *)
Definition spliceOne {A : Type} (i : nat) (a : list A) : list A :=
  firstn i a ++ skipn (S i) a.

(** [a.contains(x)], Obsidian's alias of [a.includes(x)]. *)
Definition arrayContains (a : list jstr) (x : jstr) : bool :=
  existsb (JsString.eqb x) a.

(** An assignment to a field of the pool object [pools[i]]. *)
Fixpoint updatePool (i : nat) (f : CharacterPool -> CharacterPool)
    (pools : list CharacterPool) : list CharacterPool :=
  match i, pools with
  | _, [] => []
  | 0, p :: rest => f p :: rest
  | S i', p :: rest => p :: updatePool i' f rest
  end.

(** [value.replace(/\\n/g, "\n")]: backslash, [n] becomes a line feed. *)
Fixpoint unescapeNewlines (value : jstr) : jstr :=
  match value with
  | [] => []
  | a :: tl =>
      match tl with
      | b :: rest =>
          if ((a =? 92) && (b =? 110))%N then 10%N :: unescapeNewlines rest
          else a :: unescapeNewlines tl
      | [] => [a]
      end
  end.

(** [s.replace(/\n/g, "\\n")] (lines 559-560): a line feed becomes
    backslash, [n]. *)
Definition escapeNewlines (s : jstr) : jstr :=
  flat_map (fun c => if (c =? 10)%N then [92%N; 110%N] else [c]) s.

(** What the separator field shows when the tab is displayed (line 559). *)
Definition separatorFieldValue (s : WriterAssistSettings) : jstr :=
  escapeNewlines (sectionSeparator s).

Definition setPools (pools : list CharacterPool) : M unit :=
  w <- getWorld ;;
  setSettings (mkSettings (sectionNotes (settings w)) (sectionSeparator (settings w)) pools).

Definition setSectionNotes (notes : list jstr) : M unit :=
  w <- getWorld ;;
  setSettings (mkSettings notes (sectionSeparator (settings w)) (characterPools (settings w))).

(** "Add Pool" (lines 435-448). *)
Definition onAddPool : M unit :=
  name <- PromptModal_awaitSelection (js "Enter pool name:") defaultPromptPlaceholder ;;
  match name with
  | Some name =>
      if JsString.truthy name then
        w <- getWorld ;;
        setPools (characterPools (settings w) ++ [mkCharacterPool name [] true]) ;;
        saveSettings
      else ret tt
  | None => ret tt
  end.

(** The handlers of the row of [pools[i]] (lines 455-528); there is no row,
    hence no handler, for an index out of range. *)
Definition withPool (i : nat) (k : CharacterPool -> M unit) : M unit :=
  w <- getWorld ;;
  match nth_error (characterPools (settings w)) i with
  | Some pool => k pool
  | None => ret tt
  end.

(** "Edit Pool" (lines 464-479). *)
Definition onEditPool (i : nat) : M unit :=
  withPool i (fun pool =>
    newName <- PromptModal_awaitSelection (js "Enter the new pool name:") (name pool) ;;
    match newName with
    | Some newName =>
        if JsString.truthy newName then
          w <- getWorld ;;
          setPools (updatePool i
                      (fun p => mkCharacterPool newName (charNotes p) (isEnabled p))
                      (characterPools (settings w))) ;;
          saveSettings
        else ret tt
    | None => ret tt
    end).

(** "Add Character" (lines 484-497). *)
Definition onAddCharacter (i : nat) : M unit :=
  withPool i (fun pool =>
    charNote <- NoteSuggestModal_awaitSelection (js "Search for a character's note...") ;;
    match charNote with
    | Some charNote =>
        w <- getWorld ;;
        setPools (updatePool i
                    (fun p => mkCharacterPool (name p) (charNotes p ++ [path charNote])
                                              (isEnabled p))
                    (characterPools (settings w))) ;;
        saveSettings
    | None => ret tt
    end).

(** "Remove Pool" (lines 502-516). *)
Definition onRemovePool (i : nat) : M unit :=
  withPool i (fun pool =>
    response <- ConfirmModal_awaitConfirmation (js "Remove Pool")
                  (js "Are you sure you want to remove the pool " ++ quote ++ name pool
                      ++ quote ++ js "?") ;;
    match response with
    | Some true =>
        w <- getWorld ;;
        setPools (spliceOne i (characterPools (settings w))) ;;
        saveSettings
    | _ => ret tt
    end).

(** "Enable/Disable Pool" (lines 521-524). *)
Definition onTogglePool (i : nat) (value : bool) : M unit :=
  withPool i (fun pool =>
    w <- getWorld ;;
    setPools (updatePool i (fun p => mkCharacterPool (name p) (charNotes p) value)
                (characterPools (settings w))) ;;
    saveSettings).

(** "Remove Character" of row [j] of [pools[i]] (lines 542-547). *)
Definition onRemoveCharacter (i j : nat) : M unit :=
  withPool i (fun pool =>
    w <- getWorld ;;
    setPools (updatePool i
                (fun p => mkCharacterPool (name p) (spliceOne j (charNotes p)) (isEnabled p))
                (characterPools (settings w))) ;;
    saveSettings).

(** The separator field (lines 561-564). *)
Definition onChangeSeparator (value : jstr) : M unit :=
  w <- getWorld ;;
  setSettings (mkSettings (sectionNotes (settings w)) (unescapeNewlines value)
                          (characterPools (settings w))) ;;
  saveSettings.

(** "Add Note" (lines 576-593). *)
Definition onAddNote : M unit :=
  note <- NoteSuggestModal_awaitSelection defaultNotePlaceholder ;;
  match note with
  | None => ret tt
  | Some note =>
      w <- getWorld ;;
      if arrayContains (sectionNotes (settings w)) (path note) then
        notice (js "Note already added.")
      else
        notice (js "Selected note: " ++ quote ++ path note ++ quote ++ js ".") ;;
        setSectionNotes (sectionNotes (settings w) ++ [path note]) ;;
        saveSettings
  end.

(** "Remove Note" of row [i] (lines 604-609). *)
Definition onRemoveNote (i : nat) : M unit :=
  w <- getWorld ;;
  setSectionNotes (spliceOne i (sectionNotes (settings w))) ;;
  saveSettings.

(* ================================================================= *)
(** ** The plugin as a transition system *)

Inductive Command : Type :=
| AddSectionWikilink
| AddCharacterReference
| AddCharacterDiag
| AddDramaticEllipsis.

(** The callback registered for each command (lines 29-51). *)
Definition editorCallback (c : Command) : M unit :=
  match c with
  | AddSectionWikilink => addSectionWikilink
  | AddCharacterReference => addCharacterReference
  | AddCharacterDiag => addCharacterDiag
  | AddDramaticEllipsis => addDramaticEllipsis
  end.

Inductive SettingsEvent : Type :=
| ClickAddPool
| ClickEditPool (i : nat)
| ClickAddCharacter (i : nat)
| ClickRemovePool (i : nat)
| TogglePool (i : nat) (value : bool)
| ClickRemoveCharacter (i j : nat)
| ChangeSeparator (value : jstr)
| ClickAddNote
| ClickRemoveNote (i : nat).

Definition onSettingsEvent (e : SettingsEvent) : M unit :=
  match e with
  | ClickAddPool => onAddPool
  | ClickEditPool i => onEditPool i
  | ClickAddCharacter i => onAddCharacter i
  | ClickRemovePool i => onRemovePool i
  | TogglePool i value => onTogglePool i value
  | ClickRemoveCharacter i j => onRemoveCharacter i j
  | ChangeSeparator value => onChangeSeparator value
  | ClickAddNote => onAddNote
  | ClickRemoveNote i => onRemoveNote i
  end.

(** The worlds a session can be in.  A first session starts with no stored
    data; later the plugin runs commands and settings handlers, the host
    changes the editor, the open file and the vault behind its back, and
    the plugin may be loaded again from what it saved. *)
Inductive reachable : World -> Prop :=
| reach_install env w :
    dataFile w = None -> reachable (run loadSettings env w)
| reach_command env w c :
    reachable w -> reachable (run (editorCallback c) env w)
| reach_settings env w e :
    reachable w -> reachable (run (onSettingsEvent e) env w)
| reach_reload env w :
    reachable w -> reachable (run loadSettings env w)
| reach_host w ed file v :
    reachable w ->
    reachable (mkWorld ed file v (settings w) (dataFile w) (uiLog w) (randomCalls w)).

End Handlers.

(* ================================================================= *)
(** ** A concrete host: a text buffer with one selection *)

Module TextBuffer.

(** The text, and the two ends of the selection as offsets into it. *)
Record t : Type := mk {
  text : jstr;
  anchor : nat;
  head : nat;
  focused : bool
}.

Definition isLF (c : N) : bool := (c =? 10)%N.

Fixpoint lineLength (s : jstr) : nat :=
  match s with
  | [] => 0
  | c :: s' => if isLF c then 0 else S (lineLength s')
  end.

(** Offset of column [c] of line [ln], clipped to the text. *)
Fixpoint offsetOf (s : jstr) (ln c : nat) : nat :=
  match ln with
  | 0 => Nat.min c (lineLength s)
  | S ln' =>
      match s with
      | [] => 0
      | x :: s' => S (if isLF x then offsetOf s' ln' c else offsetOf s' ln c)
      end
  end.

Definition posToOffset (s : jstr) (p : EditorPosition) : nat :=
  if (line p <? 0)%Z then 0 else offsetOf s (Z.to_nat (line p)) (Z.to_nat (ch p)).

Fixpoint posOf (s : jstr) (offset ln col : nat) : nat * nat :=
  match offset, s with
  | S o, x :: s' => if isLF x then posOf s' o (S ln) 0 else posOf s' o ln (S col)
  | _, _ => (ln, col)
  end.

Definition offsetToPos (s : jstr) (offset : nat) : EditorPosition :=
  let (ln, col) := posOf s offset 0 0 in mkPos (Z.of_nat ln) (Z.of_nat col).

Definition from (b : t) : nat := Nat.min (anchor b) (head b).
Definition to (b : t) : nat := Nat.max (anchor b) (head b).

Definition getSelection (b : t) : jstr :=
  firstn (to b - from b) (skipn (from b) (text b)).

Definition getCursor (b : t) : EditorPosition := offsetToPos (text b) (head b).

Definition replaceSelection (s : jstr) (b : t) : t :=
  let caret := from b + length s in
  mk (firstn (from b) (text b) ++ s ++ skipn (to b) (text b)) caret caret (focused b).

Definition replaceRange (s : jstr) (p : EditorPosition) (b : t) : t :=
  let o := posToOffset (text b) p in
  let shift := fun x => if o <? x then x + length s else x in
  mk (firstn o (text b) ++ s ++ skipn o (text b)) (shift (anchor b)) (shift (head b))
     (focused b).

Definition setCursor (p : EditorPosition) (b : t) : t :=
  let o := posToOffset (text b) p in mk (text b) o o (focused b).

Definition setSelection (a h : EditorPosition) (b : t) : t :=
  mk (text b) (posToOffset (text b) a) (posToOffset (text b) h) (focused b).

Definition focus (b : t) : t := mk (text b) (anchor b) (head b) true.

(** [toLowerCase] on the letters A-Z; other code units are kept. *)
Definition asciiToLowerCase (s : jstr) : jstr :=
  map (fun c => if ((65 <=? c) && (c <=? 90))%N then (c + 32)%N else c) s.

Definition host : Host :=
  Build_Host t getSelection getCursor replaceSelection replaceRange setCursor
             setSelection focus asciiToLowerCase.

Definition empty : t := mk [] 0 0 false.

End TextBuffer.

(* ================================================================= *)
(** ** Definitions used to state the properties *)

(** How many of [allNotes] have the base name of [note]. *)
Definition sameBasenameCount (note : TFile) (allNotes : list TFile) : nat :=
  length (filter (fun f => JsString.eqb (basename f) (basename note)) allNotes).

Definition isBase36Char (c : N) : bool :=
  ((48 <=? c) && (c <=? 57) || (97 <=? c) && (c <=? 122))%N.

(** The specification's [activeMembers]: the member lists of the enabled
    pools, concatenated in pool order. *)
Definition activeMembers (pools : list CharacterPool) : list jstr :=
  concat (map charNotes (filter isEnabled pools)).

(** No pool is enabled, or every enabled pool has no member. *)
Definition noActiveCharacter (pools : list CharacterPool) : Prop :=
  forall p, In p pools -> isEnabled p = true -> charNotes p = [].

(** The state of the scan of [replaceRuns] after [s]: whether its last
    code unit belongs to a run. *)
Definition runStateAfter (inRun : bool) (s : jstr) : bool :=
  fold_left (fun _ c => isSpaceOrUnderscore c) s inRun.

Section Statements.

Context {host : Host}.

(** A suggestion with text [text] is offered for [query]. *)
Definition matchesQuery (text query : jstr) : bool :=
  JsString.contains (toLowerCase text) (toLowerCase query).

(** The world after one call of [Math.random()]. *)
Definition afterRandom (w : World) : World :=
  mkWorld (editor w) (viewFile w) (vault w) (settings w) (dataFile w) (uiLog w)
          (S (randomCalls w)).

(** The world after the events [es] were shown. *)
Definition afterEvents (es : list UiEvent) (w : World) : World :=
  mkWorld (editor w) (viewFile w) (vault w) (settings w) (dataFile w) (uiLog w ++ es)
          (randomCalls w).

(** The document, the notes and the settings of [w'] are those of [w]. *)
Definition sameDocuments (w w' : World) : Prop :=
  editor w' = editor w /\ viewFile w' = viewFile w /\ vault w' = vault w
  /\ settings w' = settings w /\ dataFile w' = dataFile w.

(** The environment in which every text prompt resolves with [answer]. *)
Definition answering (answer : option jstr) (env : Env) : Env :=
  mkEnv (mkUser (chooseText (user env)) (chooseNote (user env))
                (fun _ _ => answer) (answerConfirm (user env)))
        (random env).

(** The text the section command works on (line 151). *)
Definition selectionOrDefault (w : World) : jstr :=
  if JsString.truthy (getSelection (editor w)) then getSelection (editor w)
  else js "Replace this".

(** The note the section command resolves as its target (lines 108-129),
    [None] when it stops before having one. *)
Definition resolveSectionTarget (env : Env) (w : World) : option TFile :=
  if length (sectionNotes (settings w)) =? 0 then
    noteSelection (user env) targetPlaceholder (getMarkdownFiles (vault w))
  else
    match textSelection (user env) targetPlaceholder (sectionNotes (settings w)) with
    | Some selected =>
        if JsString.truthy selected then getFileByPath (vault w) selected else None
    | None => None
    end.

(** What the settings promise about [sectionNotes], in memory and stored. *)
Definition sectionNotesUnique (w : World) : Prop :=
  NoDup (sectionNotes (settings w))
  /\ match dataFile w with
     | Some d => NoDup (orElse (stored_sectionNotes d) [])
     | None => True
     end.

End Statements.

(* ================================================================= *)
(** ** Example data *)

(** The value one half prints as ["0.i"] in radix 36. *)
Definition oneHalf : RandomValue := [18].

Definition heroNote : TFile := mkTFile (js "Cast/Hero.md") (js "Hero") (js "md").
Definition otherHero : TFile := mkTFile (js "Drafts/Hero.md") (js "Hero") (js "md").
Definition villainNote : TFile := mkTFile (js "Villain.md") (js "Villain") (js "md").

Definition castVault : Vault :=
  mkVault [(heroNote, js "A hero."); (villainNote, []); (otherHero, js "Old.")].

(** A user who picks the first row of every list and closes every text
    prompt and confirmation without typing or clicking. *)
Definition firstRowUser : User :=
  mkUser (fun _ _ => Some ([], 0)) (fun _ _ => Some ([], 0))
         (fun _ _ => None) (fun _ _ => None).

Definition castSettings : WriterAssistSettings :=
  mkSettings [js "Villain.md"] (sectionSeparator DEFAULT_SETTINGS)
             [mkCharacterPool (js "Cast") [js "Cast/Hero.md"] true].

Definition castEnv : Env := mkEnv firstRowUser (fun _ => [10; 11; 12; 1; 2; 3; 4]).

(** A user who closes every modal at once. *)
Definition closingUser : User :=
  mkUser (fun _ _ => None) (fun _ _ => None) (fun _ _ => None) (fun _ _ => None).

Definition closingEnv : Env := mkEnv closingUser (fun _ => [10; 11; 12; 1; 2; 3; 4]).

Definition disabledPools : list CharacterPool :=
  [mkCharacterPool (js "Cast") [js "Cast/Hero.md"] false;
   mkCharacterPool (js "Extras") [] true].

(** An empty document is open, the cursor at its start. *)
Definition castWorld : @World TextBuffer.host :=
  @mkWorld TextBuffer.host TextBuffer.empty None castVault castSettings None [] 0.

(** The world of a first session: the plugin was loaded with no stored
    data, in the vault of [castWorld]. *)
Definition installedWorld : @World TextBuffer.host :=
  @run TextBuffer.host unit loadSettings castEnv castWorld.

(** The world of that session after "Add Note" with the first note
    listed: a change was made in the settings tab and saved. *)
Definition changedWorld : @World TextBuffer.host :=
  @run TextBuffer.host unit onAddNote castEnv installedWorld.




(* ================================================================= *)
(** ** Definitions used to state the further properties *)

(** Backslash followed by [n], the pair [unescapeNewlines] replaces. *)
Definition escapedNewline : jstr := [92%N; 110%N].

Definition setEnabled (value : bool) (p : CharacterPool) : CharacterPool :=
  mkCharacterPool (name p) (charNotes p) value.

Section FurtherStatements.

Context {host : Host}.

(** What is stored is what is in memory: loading again changes nothing. *)
Definition settingsInSync (w : World) : Prop :=
  mergeSettings (dataFile w) = settings w.

(** No separator, in memory or stored, holds the pair backslash, [n]. *)
Definition separatorUnescaped (w : World) : Prop :=
  JsString.contains (sectionSeparator (settings w)) escapedNewline = false
  /\ match dataFile w with
     | Some d =>
         JsString.contains (orElse (stored_sectionSeparator d) []) escapedNewline = false
     | None => True
     end.

(** The handlers of the settings tab leave these alone. *)
Definition sameWorkspace (w w' : World) : Prop :=
  editor w' = editor w /\ viewFile w' = viewFile w /\ vault w' = vault w
  /\ randomCalls w' = randomCalls w.

End FurtherStatements.

(* ================================================================= *)
(** * Properties *)

(** ** Strings *)

Lemma eqb_eq (a b : jstr) : JsString.eqb a b = true <-> a = b.
Proof.
  revert b; induction a as [|x a IH]; intros [|y b]; simpl; split; intro E;
    try reflexivity; try discriminate.
  - apply andb_true_iff in E as [E1 E2].
    apply N.eqb_eq in E1. apply IH in E2. now subst.
  - injection E as -> ->. rewrite N.eqb_refl. simpl. now apply IH.
Qed.

Lemma eqb_refl (a : jstr) : JsString.eqb a a = true.
Proof. now apply eqb_eq. Qed.

Lemma eqb_neq (a b : jstr) : JsString.eqb a b = false <-> a <> b.
Proof.
  split.
  - intros E ->. rewrite eqb_refl in E. discriminate.
  - intro NE. destruct (JsString.eqb a b) eqn:E; [|reflexivity].
    apply eqb_eq in E. contradiction.
Qed.

Lemma startsWith_spec (s q : jstr) :
  JsString.startsWith s q = true <-> exists r, s = q ++ r.
Proof.
  revert s; induction q as [|y q IH]; intros s; simpl.
  - split; [intros _; now exists s | reflexivity].
  - destruct s as [|x s]; split.
    + discriminate.
    + intros [r E]. discriminate.
    + intro E. apply andb_true_iff in E as [E1 E2].
      apply N.eqb_eq in E1. apply IH in E2 as [r ->]. subst. now exists r.
    + intros [r E]. injection E as -> ->. rewrite N.eqb_refl. simpl.
      apply IH. now exists r.
Qed.

(** [contains] is the substring test. *)
Lemma contains_spec (s q : jstr) :
  JsString.contains s q = true <-> exists a b, s = a ++ q ++ b.
Proof.
  induction s as [|x s IH].
  - simpl. rewrite orb_false_r. rewrite startsWith_spec. split.
    + intros [r E]. now exists [], r.
    + intros [a [b E]]. destruct a; [now exists b | discriminate].
  - cbn [JsString.contains]. rewrite orb_true_iff, startsWith_spec, IH. split.
    + intros [[r E] | [a [b E]]].
      * now exists [], r.
      * exists (x :: a), b. simpl. now rewrite E.
    + intros [[|y a] [b E]].
      * left. now exists b.
      * right. injection E as -> E. now exists a, b.
Qed.

(** [trimStart] removes white space from the front, as much as there is. *)
Lemma trimStart_spec (s : jstr) :
  exists lead,
    s = lead ++ JsString.trimStart s
    /\ forallb JsString.isWhiteSpace lead = true
    /\ (forall c r, JsString.trimStart s = c :: r -> JsString.isWhiteSpace c = false).
Proof.
  induction s as [|x s (lead & E & Hl & Hh)]; simpl.
  - exists []. repeat split. discriminate.
  - destruct (JsString.isWhiteSpace x) eqn:Hx.
    + exists (x :: lead). simpl. rewrite Hx, Hl. repeat split; [now f_equal | exact Hh].
    + exists []. repeat split. intros c r [= <- _]. exact Hx.
Qed.

(** [trimEnd] removes white space from the end, as much as there is. *)
Lemma trimEnd_spec (s : jstr) :
  exists trail,
    s = JsString.trimEnd s ++ trail
    /\ forallb JsString.isWhiteSpace trail = true
    /\ (forall r c, JsString.trimEnd s = r ++ [c] -> JsString.isWhiteSpace c = false).
Proof.
  induction s as [|x s (trail & E & Ht & Hl)]; simpl.
  - exists []. repeat split. intros [|? ?] c; discriminate.
  - destruct (JsString.trimEnd s) as [|y r'] eqn:Er.
    + simpl in E. subst trail.
      destruct (JsString.isWhiteSpace x) eqn:Hx.
      * exists (x :: s). simpl. rewrite Hx. repeat split; [exact Ht|].
        intros [|? ?] c; discriminate.
      * exists s. repeat split; [exact Ht|].
        intros [|? [|? ?]] c; try discriminate. now intros [= <-].
    + exists trail. repeat split; [simpl; now rewrite E at 1 | exact Ht |].
      intros [|z r] c Hc; [discriminate|].
      injection Hc as -> Hc. now apply (Hl r c).
Qed.

Lemma trimEnd_nil_iff (s : jstr) :
  JsString.trimEnd s = [] <-> forallb JsString.isWhiteSpace s = true.
Proof.
  induction s as [|x s IH]; simpl; [tauto|].
  destruct (JsString.trimEnd s) as [|y r].
  - destruct (JsString.isWhiteSpace x); simpl.
    + split; [intros _; now apply IH | reflexivity].
    + split; discriminate.
  - split; [discriminate|]. intro Hf. apply andb_true_iff in Hf as [_ Hf].
    apply IH in Hf. discriminate.
Qed.

(** Trimming changes nothing when the last code unit is not white space. *)
Lemma trimEnd_fixed (s : jstr) (c : N) :
  JsString.isWhiteSpace c = false -> JsString.trimEnd (s ++ [c]) = s ++ [c].
Proof.
  intro Hc. induction s as [|x s IH]; simpl.
  - now rewrite Hc.
  - rewrite IH. destruct (s ++ [c]) eqn:E; [|reflexivity].
    destruct s; discriminate.
Qed.


(* ----------------------------------------------------------------- *)
(** ** Path shortener *)

Lemma shortenNotePath_loop_spec (note : TFile) (allNotes : list TFile) (count : nat) :
  count <= 1 ->
  shortenNotePath_loop note allNotes count =
    if 1 <? count + sameBasenameCount note allNotes
    then JsString.slice (path note) 0 (-3)
    else basename note.
Proof.
  unfold sameBasenameCount.
  revert count; induction allNotes as [|f rest IH]; intros count Hc; simpl.
  - rewrite Nat.add_0_r. destruct (1 <? count) eqn:E; [|reflexivity].
    apply Nat.ltb_lt in E. lia.
  - destruct (JsString.eqb (basename f) (basename note)); simpl.
    + destruct count as [|count]; simpl.
      * rewrite IH by lia. reflexivity.
      * assert (count = 0) as -> by lia. simpl. reflexivity.
    + destruct (1 <? count) eqn:E.
      * apply Nat.ltb_lt in E. lia.
      * now apply IH.
Qed.




(* ----------------------------------------------------------------- *)
(** ** Section ID generator *)

Lemma firstn_min_length {A : Type} (n : nat) (l : list A) :
  firstn (Nat.min (length l) n) l = firstn n l.
Proof.
  destruct (Nat.le_ge_cases n (length l)) as [Hle | Hge].
  - now rewrite Nat.min_r.
  - rewrite Nat.min_l by assumption. now rewrite firstn_all, firstn_all2.
Qed.

(** The generator keeps the first six digits after the radix point. *)
Lemma randomSectionId_digits (r : RandomValue) :
  randomSectionId r = firstn 6 (map base36Digit r).
Proof.
  destruct r as [|d r]; [reflexivity|].
  unfold randomSectionId, toString36, JsString.substring.
  set (m := map base36Digit (d :: r)).
  assert (length (js "0." ++ m) = 2 + length m) as -> by (rewrite length_app; reflexivity).
  assert (1 <= length m) as Hm by (unfold m; simpl; lia).
  replace (Nat.min 2 (2 + length m)) with 2 by lia.
  replace (Nat.min 2 (Nat.min 8 (2 + length m))) with 2 by lia.
  replace (Nat.max 2 (Nat.min 8 (2 + length m)) - 2) with (Nat.min (length m) 6) by lia.
  change (skipn 2 (js "0." ++ m)) with m.
  apply firstn_min_length.
Qed.

Lemma randomSectionId_length (r : RandomValue) :
  length (randomSectionId r) = Nat.min 6 (length r).
Proof. now rewrite randomSectionId_digits, length_firstn, length_map. Qed.

Lemma base36Digit_alphabet (d : nat) : d < 36 -> isBase36Char (base36Digit d) = true.
Proof.
  intro Hd. do 36 (destruct d as [|d]; [reflexivity|]). lia.
Qed.

Lemma randomSectionId_alphabet (r : RandomValue) :
  validRandomValue r -> forallb isBase36Char (randomSectionId r) = true.
Proof.
  intro Hr. rewrite randomSectionId_digits. apply forallb_forall. intros c Hc.
  apply (In_nth_error) in Hc as [i Hi].
  assert (In c (map base36Digit r)) as Hin.
  { apply nth_error_In in Hi. revert Hi. generalize 6.
    intros n Hin. clear -Hin. revert n Hin.
    induction (map base36Digit r) as [|x l IH]; intros [|n] Hin; simpl in *; try tauto.
    destruct Hin as [-> | Hin]; [now left | right; eauto]. }
  apply in_map_iff in Hin as [d [<- Hd]].
  apply base36Digit_alphabet. unfold validRandomValue in Hr.
  rewrite Forall_forall in Hr. now apply Hr.
Qed.

(** C2: the generator does not always return six characters.  When
    [Math.random()] returns one half, whose rendering in radix 36 is ["0.i"],
    it returns the one-character string ["i"]; when it returns zero,
    rendered ["0"], it returns the empty string.  In general the result has
    as many characters as the rendering has digits, six at most. *)
Theorem C2_randomSectionId_short :
  validRandomValue oneHalf
  /\ toString36 oneHalf = js "0.i"
  /\ randomSectionId oneHalf = js "i"
  /\ length (randomSectionId oneHalf) <> 6
  /\ randomSectionId [] = []
  /\ (forall r, length (randomSectionId r) = Nat.min 6 (length r)).
Proof.
  repeat split.
  - repeat constructor.
  - discriminate.
  - apply randomSectionId_length.
Qed.

(* ----------------------------------------------------------------- *)
(** ** Active characters *)

Lemma countActive_spec (pools : list CharacterPool) (n : nat) :
  countActive pools n = n + length (activeMembers pools).
Proof.
  unfold activeMembers. revert n; induction pools as [|p rest IH]; intro n; simpl.
  - lia.
  - rewrite IH. destruct (isEnabled p); simpl; [rewrite length_app|]; lia.
Qed.

(** Writing at the first hole of an array filled up to there. *)
Lemma arraySet_next (done : list jstr) (x : jstr) (rest : JsArray) :
  arraySet (map Some done ++ None :: rest) (length done) x
  = map Some (done ++ [x]) ++ rest.
Proof.
  induction done as [|y done IH]; simpl.
  - reflexivity.
  - now rewrite IH.
Qed.

Lemma copyNotes_spec (notes done : list jstr) (k : nat) :
  copyNotes notes (map Some done ++ repeat None (length notes + k), length done)
  = (map Some (done ++ notes) ++ repeat None k, length (done ++ notes)).
Proof.
  revert done; induction notes as [|c notes IH]; intro done.
  - simpl. now rewrite app_nil_r.
  - cbn [copyNotes fst snd length Nat.add repeat]. rewrite arraySet_next.
    replace (S (length done)) with (length (done ++ [c]))
      by (rewrite length_app; simpl; lia).
    rewrite IH. now rewrite <- app_assoc.
Qed.

Lemma fillActive_spec (pools : list CharacterPool) (done : list jstr) (k : nat) :
  fillActive pools (map Some done ++ repeat None (length (activeMembers pools) + k),
                    length done)
  = (map Some (done ++ activeMembers pools) ++ repeat None k,
     length (done ++ activeMembers pools)).
Proof.
  unfold activeMembers.
  revert done; induction pools as [|p rest IH]; intro done; simpl.
  - now rewrite app_nil_r.
  - destruct (isEnabled p); simpl.
    + rewrite length_app, <- Nat.add_assoc, copyNotes_spec, IH.
      now rewrite <- app_assoc.
    + apply IH.
Qed.

(** The array returned is full: it holds the active members and no hole. *)
Lemma getActiveCharNotes_array_spec (pools : list CharacterPool) :
  getActiveCharNotes_array pools = map Some (activeMembers pools).
Proof.
  unfold getActiveCharNotes_array. cbv zeta. rewrite !countActive_spec.
  change (0 + length (activeMembers pools)) with (length (activeMembers pools)).
  destruct (length (activeMembers pools) =? 0) eqn:E.
  - apply Nat.eqb_eq, length_zero_iff_nil in E. now rewrite E.
  - pose proof (fillActive_spec pools [] 0) as Hf.
    cbn [map app length repeat] in Hf. rewrite Nat.add_0_r in Hf.
    rewrite <- (app_nil_r (map Some (activeMembers pools))).
    exact (f_equal fst Hf).
Qed.

Lemma definedElements_Some (l : list jstr) : definedElements (map Some l) = l.
Proof. induction l as [|x l IH]; simpl; [reflexivity | now rewrite IH]. Qed.

Lemma getActiveCharNotes_spec (pools : list CharacterPool) :
  getActiveCharNotes pools = activeMembers pools.
Proof.
  unfold getActiveCharNotes.
  now rewrite getActiveCharNotes_array_spec, definedElements_Some.
Qed.

Lemma activeMembers_nil_iff (pools : list CharacterPool) :
  activeMembers pools = [] <-> noActiveCharacter pools.
Proof.
  unfold activeMembers, noActiveCharacter.
  induction pools as [|p rest IH]; simpl.
  - split; [intros _ q [] | reflexivity].
  - destruct (isEnabled p) eqn:Ep; simpl.
    + split.
      * intros E q [<- | Hq] Hen.
        -- now apply app_eq_nil in E.
        -- apply app_eq_nil in E as [_ E]. apply IH; assumption.
      * intro Hall. rewrite (Hall p) by auto. simpl. apply IH. auto.
    + rewrite IH. split.
      * intros Hall q [<- | Hq] Hen; [congruence | auto].
      * auto.
Qed.

(** C6: [getActiveCharNotes] returns the member lists of the enabled pools,
    concatenated in pool order and member order, as an array without holes;
    the result is empty when no pool is enabled or every enabled pool is
    empty.  The two examples of the specification are included. *)
Theorem C6_getActiveCharNotes :
  (forall pools,
      getActiveCharNotes_array pools = map Some (activeMembers pools)
      /\ getActiveCharNotes pools = activeMembers pools
      /\ (getActiveCharNotes pools = [] <-> noActiveCharacter pools))
  /\ (forall n1 n2 a b c,
        getActiveCharNotes [mkCharacterPool n1 [a] false; mkCharacterPool n2 [b; c] true]
        = [b; c])
  /\ getActiveCharNotes [] = [].
Proof.
  split; [|split].
  - intro pools. split; [|split].
    + apply getActiveCharNotes_array_spec.
    + apply getActiveCharNotes_spec.
    + rewrite getActiveCharNotes_spec. apply activeMembers_nil_iff.
  - intros. now rewrite getActiveCharNotes_spec.
  - reflexivity.
Qed.

(* ----------------------------------------------------------------- *)
(** ** Section ID normalization *)

Lemma trim_spec (s : jstr) :
  exists lead trail,
    s = lead ++ JsString.trim s ++ trail
    /\ forallb JsString.isWhiteSpace lead = true
    /\ forallb JsString.isWhiteSpace trail = true
    /\ (forall c r, JsString.trim s = c :: r -> JsString.isWhiteSpace c = false)
    /\ (forall r c, JsString.trim s = r ++ [c] -> JsString.isWhiteSpace c = false).
Proof.
  destruct (trimStart_spec s) as (lead & Es & Hlead & Hfirst).
  destruct (trimEnd_spec (JsString.trimStart s)) as (trail & Et & Htrail & Hlast).
  exists lead, trail. unfold JsString.trim. repeat split; try assumption.
  - now rewrite <- Et.
  - intros c r E. rewrite E in Et. simpl in Et. now apply (Hfirst c (r ++ trail)).
Qed.

Lemma replaceRuns_app (inRun : bool) (a x : jstr) :
  replaceRuns inRun (a ++ x)
  = replaceRuns inRun a ++ replaceRuns (runStateAfter inRun a) x.
Proof.
  unfold runStateAfter. revert inRun; induction a as [|c a IH]; intro inRun; simpl.
  - reflexivity.
  - destruct (isSpaceOrUnderscore c); [destruct inRun|]; simpl; now rewrite IH.
Qed.

Lemma runStateAfter_last (inRun : bool) (r : jstr) (c : N) :
  runStateAfter inRun (r ++ [c]) = isSpaceOrUnderscore c.
Proof. unfold runStateAfter. now rewrite fold_left_app. Qed.

Lemma replaceRuns_inside_run (run : jstr) :
  forallb isSpaceOrUnderscore run = true -> replaceRuns true run = [].
Proof.
  induction run as [|c run IH]; simpl; [reflexivity|].
  intro H. apply andb_true_iff in H as [Hc Hr]. rewrite Hc. now apply IH.
Qed.

(** A whole run becomes one hyphen. *)
Lemma replaceRuns_run (run : jstr) :
  run <> [] -> forallb isSpaceOrUnderscore run = true -> replaceRuns false run = [hyphen].
Proof.
  destruct run as [|c run]; [contradiction|]. intros _ H. simpl in *.
  apply andb_true_iff in H as [Hc Hr]. rewrite Hc. now rewrite replaceRuns_inside_run.
Qed.

(** What follows a run is scanned as from the start. *)
Lemma replaceRuns_after_run (b : jstr) :
  (forall c r, b = c :: r -> isSpaceOrUnderscore c = false) ->
  replaceRuns true b = replaceRuns false b.
Proof.
  destruct b as [|c b]; [reflexivity|]. intro H. simpl.
  now rewrite (H c b eq_refl).
Qed.

(** Code units outside the class are kept. *)
Lemma replaceRuns_keep (inRun : bool) (s : jstr) :
  forallb (fun c => negb (isSpaceOrUnderscore c)) s = true -> replaceRuns inRun s = s.
Proof.
  revert inRun; induction s as [|c s IH]; intro inRun; simpl; [reflexivity|].
  intro H. apply andb_true_iff in H as [Hc Hs]. apply negb_true_iff in Hc.
  rewrite Hc. now rewrite IH.
Qed.

Lemma last_cases {A : Type} (l : list A) : l = [] \/ exists r c, l = r ++ [c].
Proof.
  induction l as [|x l _] using rev_ind; [now left | right; now exists l, x].
Qed.

(** Each maximal run of white space and underscores becomes one hyphen. *)
Lemma replaceRuns_collapse (a run b : jstr) :
  run <> [] ->
  forallb isSpaceOrUnderscore run = true ->
  (forall r c, a = r ++ [c] -> isSpaceOrUnderscore c = false) ->
  (forall c r, b = c :: r -> isSpaceOrUnderscore c = false) ->
  replaceRuns false (a ++ run ++ b)
  = replaceRuns false a ++ [hyphen] ++ replaceRuns false b.
Proof.
  intros Hne Hrun Ha Hb.
  assert (runStateAfter false a = false) as Sa.
  { destruct (last_cases a) as [-> | (a' & x & ->)]; [reflexivity|].
    rewrite runStateAfter_last. now apply (Ha a' x). }
  assert (runStateAfter false run = true) as Sr.
  { destruct (last_cases run) as [-> | (run' & x & ->)]; [contradiction|].
    rewrite runStateAfter_last. rewrite forallb_app in Hrun.
    apply andb_true_iff in Hrun as [_ Hx]. simpl in Hx.
    now rewrite andb_true_r in Hx. }
  rewrite replaceRuns_app, Sa, replaceRuns_app, Sr.
  rewrite (replaceRuns_run run Hne Hrun).
  now rewrite replaceRuns_after_run.
Qed.

Lemma normalizeSectionId_idChars (s : jstr) :
  forallb isIdChar (normalizeSectionId s) = true.
Proof.
  unfold normalizeSectionId, stripNonId. apply forallb_forall.
  intros c Hc. now apply filter_In in Hc.
Qed.

Lemma normalizeSectionId_nil : normalizeSectionId [] = [].
Proof. reflexivity. Qed.

Section NormalizationProps.

Context {host : Host}.

(** An ID whose normal form is empty is replaced by a random one, and any
    other ID typed is used in its normal form. *)
Lemma resolveSectionId_spec (typed : jstr) (env : Env) (w : World) :
  resolveSectionId (Some typed) env w
  = match normalizeSectionId typed with
    | [] => (randomSectionId (random env (randomCalls w)), afterRandom w)
    | c :: r => (c :: r, w)
    end.
Proof.
  unfold resolveSectionId. destruct typed as [|x typed].
  - reflexivity.
  - cbn [JsString.truthy]. destruct (normalizeSectionId (x :: typed)); reflexivity.
Qed.

(** C4: a section ID the user typed is trimmed, then every run of white
    space and underscores becomes one hyphen, then every code unit outside
    [A-Za-z0-9-] is removed; ["My Section!! 2"] becomes ["My-Section-2"];
    and whenever the result is empty, as for ["   "] and ["##"], the ID used
    is the random one. *)
Theorem C4_normalizeSectionId :
  (forall s,
      normalizeSectionId s = filter isIdChar (replaceRuns false (JsString.trim s))
      /\ forallb isIdChar (normalizeSectionId s) = true
      /\ exists lead trail,
           s = lead ++ JsString.trim s ++ trail
           /\ forallb JsString.isWhiteSpace lead = true
           /\ forallb JsString.isWhiteSpace trail = true
           /\ (forall c r, JsString.trim s = c :: r -> JsString.isWhiteSpace c = false)
           /\ (forall r c, JsString.trim s = r ++ [c] -> JsString.isWhiteSpace c = false))
  /\ (forall a run b,
        run <> [] ->
        forallb isSpaceOrUnderscore run = true ->
        (forall r c, a = r ++ [c] -> isSpaceOrUnderscore c = false) ->
        (forall c r, b = c :: r -> isSpaceOrUnderscore c = false) ->
        replaceRuns false (a ++ run ++ b)
        = replaceRuns false a ++ [hyphen] ++ replaceRuns false b)
  /\ (forall s,
        forallb (fun c => negb (isSpaceOrUnderscore c)) s = true ->
        replaceRuns false s = s)
  /\ normalizeSectionId (js "My Section!! 2") = js "My-Section-2"
  /\ normalizeSectionId (js "   ") = []
  /\ normalizeSectionId (js "##") = []
  /\ (forall typed env w,
        normalizeSectionId typed = [] ->
        resolveSectionId (Some typed) env w
        = (randomSectionId (random env (randomCalls w)), afterRandom w))
  /\ (forall typed env w,
        normalizeSectionId typed <> [] ->
        resolveSectionId (Some typed) env w = (normalizeSectionId typed, w)).
Proof.
  split; [|split; [|split; [|split; [|split; [|split; [|split]]]]]].
  - intro s. split; [reflexivity|]. split; [apply normalizeSectionId_idChars|].
    apply trim_spec.
  - apply replaceRuns_collapse.
  - intro s. apply replaceRuns_keep.
  - reflexivity.
  - reflexivity.
  - reflexivity.
  - intros typed env w E. rewrite resolveSectionId_spec. now rewrite E.
  - intros typed env w NE. rewrite resolveSectionId_spec.
    destruct (normalizeSectionId typed); [contradiction | reflexivity].
Qed.

End NormalizationProps.

(* ----------------------------------------------------------------- *)
(** ** Suggestion filtering *)

Lemma skipn_nth_error {A : Type} (l : list A) (i : nat) (x : A) :
  nth_error l i = Some x -> skipn i l = x :: skipn (S i) l.
Proof.
  revert i; induction l as [|y l IH]; intros [|i] E; simpl in *; try discriminate.
  - now injection E as ->.
  - now apply IH.
Qed.

Section SuggestionProps.

Context {host : Host}.

(** The loop filters, in order, the [remaining] suggestions from index [i]. *)
Lemma getSuggestions_loop_spec {T : Type} (text : T -> jstr) (suggestions : list T)
    (query : jstr) (remaining i : nat) (filtered : list T) :
  i + remaining <= length suggestions ->
  getSuggestions_loop text suggestions query remaining i filtered
  = filtered ++ filter (fun s => JsString.contains (toLowerCase (text s)) query)
                       (firstn remaining (skipn i suggestions)).
Proof.
  revert i filtered; induction remaining as [|remaining IH]; intros i filtered Hle.
  - simpl. now rewrite app_nil_r.
  - cbn [getSuggestions_loop].
    destruct (nth_error suggestions i) as [s|] eqn:Es.
    + rewrite IH by lia. rewrite (skipn_nth_error suggestions i s Es).
      cbn [firstn filter].
      destruct (JsString.contains (toLowerCase (text s)) query);
        [now rewrite <- app_assoc | reflexivity].
    + apply nth_error_None in Es. lia.
Qed.

Lemma getSuggestions_filter {T : Type} (text : T -> jstr) (suggestions : list T)
    (query : jstr) (limit : nat) :
  getSuggestions_loop text suggestions query (Nat.min (length suggestions) limit) 0 []
  = filter (fun s => JsString.contains (toLowerCase (text s)) query)
           (firstn limit suggestions).
Proof.
  rewrite getSuggestions_loop_spec by lia.
  cbn [skipn app]. now rewrite firstn_min_length.
Qed.

Lemma TextSuggestModal_getSuggestions_spec (suggestions : list jstr) (query : jstr) :
  TextSuggestModal_getSuggestions suggestions query
  = filter (fun s => matchesQuery s query) (firstn suggestionLimit suggestions).
Proof. apply getSuggestions_filter. Qed.

Lemma NoteSuggestModal_getSuggestions_spec (suggestions : list TFile) (query : jstr) :
  NoteSuggestModal_getSuggestions suggestions query
  = filter (fun f => matchesQuery (path f) query) (firstn suggestionLimit suggestions).
Proof. apply getSuggestions_filter. Qed.

Lemma firstn_idem {A : Type} (n : nat) (l : list A) : firstn n (firstn n l) = firstn n l.
Proof. rewrite firstn_firstn. now rewrite Nat.min_id. Qed.

(** C10: for every query, [getSuggestions] of both suggestion modals
    returns, in order, the suggestions among the first 1000 whose
    lower-cased text (the path, for a note) contains the lower-cased query
    as a substring; what lies at index 1000 or beyond has no influence on
    the result. *)
Theorem C10_getSuggestions (query : jstr) :
  (forall suggestions : list jstr,
      TextSuggestModal_getSuggestions suggestions query
      = filter (fun s => matchesQuery s query) (firstn 1000 suggestions)
      /\ TextSuggestModal_getSuggestions suggestions query
         = TextSuggestModal_getSuggestions (firstn 1000 suggestions) query)
  /\ (forall suggestions : list TFile,
        NoteSuggestModal_getSuggestions suggestions query
        = filter (fun f => matchesQuery (path f) query) (firstn 1000 suggestions)
        /\ NoteSuggestModal_getSuggestions suggestions query
           = NoteSuggestModal_getSuggestions (firstn 1000 suggestions) query)
  /\ (forall text : jstr,
        matchesQuery text query = true
        <-> exists a b, toLowerCase text = a ++ toLowerCase query ++ b).
Proof.
  change 1000 with suggestionLimit. split; [|split].
  - intro suggestions. rewrite !TextSuggestModal_getSuggestions_spec.
    now rewrite firstn_idem.
  - intro suggestions. rewrite !NoteSuggestModal_getSuggestions_spec.
    now rewrite firstn_idem.
  - intro text. apply contains_spec.
Qed.

End SuggestionProps.

(* ----------------------------------------------------------------- *)
(** ** The commands *)

Section CommandProps.

Context {host : Host}.

(** Unfolds the monad and its primitive effects. *)
Ltac step_monad :=
  unfold TextSuggestModal_awaitSelection, NoteSuggestModal_awaitSelection,
    PromptModal_awaitSelection, ConfirmModal_awaitConfirmation,
    loadSettings, setPools, setSectionNotes in *;
  unfold run, bind, ret, notice, logEvent, getWorld, editorDo, setVault, setSettings,
    mathRandom, saveSettings in *;
  cbn [fst snd editor viewFile vault settings dataFile uiLog randomCalls] in *.

Lemma sameDocuments_refl (w : World) : sameDocuments w w.
Proof. now repeat split. Qed.

Lemma sameDocuments_trans (w1 w2 w3 : World) :
  sameDocuments w1 w2 -> sameDocuments w2 w3 -> sameDocuments w1 w3.
Proof.
  unfold sameDocuments. intros (E1 & E2 & E3 & E4 & E5) (F1 & F2 & F3 & F4 & F5).
  repeat split; congruence.
Qed.

(** With nobody to choose from, [promptForCharacter] shows its notice and
    returns [null]; the log shows that no modal was opened. *)
Lemma promptForCharacter_empty (pools : list CharacterPool) (env : Env) (w : World) :
  getActiveCharNotes pools = [] ->
  promptForCharacter pools env w
  = (None, afterEvents [Notice (js "No active characters to reference.")] w).
Proof.
  intro E. unfold promptForCharacter. rewrite E. reflexivity.
Qed.

(** With somebody to choose from, the selection modal is opened first. *)
Lemma promptForCharacter_opens (pools : list CharacterPool) (env : Env) (w : World) :
  getActiveCharNotes pools <> [] ->
  exists rest,
    uiLog (snd (promptForCharacter pools env w))
    = uiLog w ++ OpenTextSuggest characterPlaceholder (getActiveCharNotes pools) :: rest.
Proof.
  intro NE. unfold promptForCharacter.
  destruct (getActiveCharNotes pools) as [|c l] eqn:E; [contradiction|].
  cbn [length Nat.eqb]. step_monad.
  destruct (textSelection (user env) characterPlaceholder (c :: l)) as [sel|];
    [destruct (JsString.truthy sel);
     [step_monad; destruct (getFileByPath (vault w) sel)|]|];
    step_monad; rewrite <- ?app_assoc; eexists; reflexivity.
Qed.

(** [promptForCharacter] edits nothing. *)
Lemma promptForCharacter_frame (pools : list CharacterPool) (env : Env) (w : World) :
  sameDocuments w (snd (promptForCharacter pools env w)).
Proof.
  unfold promptForCharacter.
  destruct (length (getActiveCharNotes pools) =? 0); [now repeat split|].
  step_monad.
  destruct (textSelection (user env) characterPlaceholder (getActiveCharNotes pools))
    as [sel|]; [|now repeat split].
  destruct (JsString.truthy sel); [|now repeat split].
  step_monad. destruct (getFileByPath (vault w) sel); now repeat split.
Qed.

(** A closed selection modal makes [promptForCharacter] return [null]. *)
Lemma promptForCharacter_cancel (pools : list CharacterPool) (env : Env) (w : World) :
  textSelection (user env) characterPlaceholder (getActiveCharNotes pools) = None ->
  fst (promptForCharacter pools env w) = None.
Proof.
  intro E. unfold promptForCharacter.
  destruct (length (getActiveCharNotes pools) =? 0); [reflexivity|].
  step_monad. now rewrite E.
Qed.

(** C9: when no pool is enabled or every enabled pool is empty,
    [promptForCharacter] returns an absent value after one notice, and
    the events it adds to the log contain no opening of a modal. *)
Theorem C9_promptForCharacter_empty (pools : list CharacterPool) (env : Env) (w : World) :
  noActiveCharacter pools ->
  getActiveCharNotes pools = []
  /\ promptForCharacter pools env w
     = (None, afterEvents [Notice (js "No active characters to reference.")] w)
  /\ exists shown,
       uiLog (snd (promptForCharacter pools env w)) = uiLog w ++ shown
       /\ existsb isPromptEvent shown = false.
Proof.
  intro Hno.
  assert (getActiveCharNotes pools = []) as E.
  { rewrite getActiveCharNotes_spec. now apply activeMembers_nil_iff. }
  split; [exact E|]. rewrite (promptForCharacter_empty pools env w E).
  split; [reflexivity|].
  exists [Notice (js "No active characters to reference.")]. now split.
Qed.

(* ----------------------------------------------------------------- *)
(** *** What the commands do once their target is resolved *)

Lemma promptForAlias_spec (charNote : TFile) (env : Env) (w : World) :
  promptForAlias charNote env w
  = (answerPrompt (user env) aliasTitle (basename charNote),
     afterEvents [OpenPrompt aliasTitle (basename charNote)] w).
Proof. reflexivity. Qed.

(** [resolveSectionId] at most draws one random number. *)
Lemma resolveSectionId_world (typed : option jstr) (env : Env) (w : World) :
  snd (resolveSectionId typed env w) = w \/ snd (resolveSectionId typed env w) = afterRandom w.
Proof.
  unfold resolveSectionId.
  destruct typed as [[|x s]|]; [now right | | now right].
  cbn [JsString.truthy].
  destruct (normalizeSectionId (x :: s)); [now right | now left].
Qed.

Lemma resolveSectionId_frame (typed : option jstr) (env : Env) (w : World) :
  sameDocuments w (snd (resolveSectionId typed env w)).
Proof.
  destruct (resolveSectionId_world typed env w) as [-> | ->]; now repeat split.
Qed.

(** The ID does not depend on what was shown to the user before. *)
Lemma resolveSectionId_afterEvents (typed : option jstr) (env : Env) (w : World)
    (es : list UiEvent) :
  fst (resolveSectionId typed env (afterEvents es w)) = fst (resolveSectionId typed env w).
Proof.
  unfold resolveSectionId.
  destruct typed as [[|x s]|]; [reflexivity | | reflexivity].
  cbn [JsString.truthy]. destruct (normalizeSectionId (x :: s)); reflexivity.
Qed.

(** When no character is resolved, the character commands stop there. *)
Lemma addCharacterReference_abort (env : Env) (w : World) :
  fst (promptForCharacter (characterPools (settings w)) env w) = None ->
  run addCharacterReference env w
  = snd (promptForCharacter (characterPools (settings w)) env w).
Proof.
  intro E. unfold addCharacterReference. step_monad.
  destruct (promptForCharacter (characterPools (settings w)) env w) as [[t|] w1];
    [discriminate | reflexivity].
Qed.

Lemma addCharacterDiag_abort (env : Env) (w : World) :
  fst (promptForCharacter (characterPools (settings w)) env w) = None ->
  run addCharacterDiag env w
  = snd (promptForCharacter (characterPools (settings w)) env w).
Proof.
  intro E. unfold addCharacterDiag. step_monad.
  destruct (promptForCharacter (characterPools (settings w)) env w) as [[t|] w1];
    [discriminate | reflexivity].
Qed.

(** With a character resolved, the reference command replaces the selection
    by the link and focuses the editor. *)
Lemma addCharacterReference_inserts (env : Env) (w : World) (target : TFile) :
  fst (promptForCharacter (characterPools (settings w)) env w) = Some target ->
  editor (run addCharacterReference env w)
  = focus (replaceSelection
             (characterLink (shortenNotePath target (vault w))
                            (answerPrompt (user env) aliasTitle (basename target)))
             (editor w)).
Proof.
  intro E. unfold addCharacterReference. step_monad.
  pose proof (promptForCharacter_frame (characterPools (settings w)) env w) as Hf.
  destruct (promptForCharacter (characterPools (settings w)) env w) as [[t|] w1];
    [|discriminate].
  injection E as ->. destruct Hf as (E1 & _ & E2 & _).
  unfold promptForAlias. step_monad. now rewrite E1, E2.
Qed.

(** With a character resolved, the dialog command inserts the block at the
    cursor and moves the cursor between the two quotes. *)
Lemma addCharacterDiag_inserts (env : Env) (w : World) (target : TFile) :
  fst (promptForCharacter (characterPools (settings w)) env w) = Some target ->
  let link := characterLink (shortenNotePath target (vault w))
                (answerPrompt (user env) aliasTitle (basename target)) in
  let e1 := focus (replaceRange (dialogBlock link) (getCursor (editor w)) (editor w)) in
  editor (run addCharacterDiag env w)
  = setCursor (mkPos (line (getCursor e1) + 1) (ch (getCursor e1) - 1)) e1.
Proof.
  intro E. unfold addCharacterDiag. step_monad.
  pose proof (promptForCharacter_frame (characterPools (settings w)) env w) as Hf.
  destruct (promptForCharacter (characterPools (settings w)) env w) as [[t|] w1];
    [|discriminate].
  injection E as ->. destruct Hf as (E1 & _ & E2 & _).
  unfold promptForAlias. step_monad. now rewrite E1, E2.
Qed.

(** With a target note, the section command replaces the selection by the
    anchor link, selects the display text, and hands [appendSection] to the
    vault for the target note. *)
Lemma addSectionWikilink_to_spec (target : TFile) (env : Env) (w : World) :
  let typed := answerPrompt (user env) sectionIdTitle defaultPromptPlaceholder in
  let sectionId := fst (resolveSectionId typed env w) in
  let selection := selectionOrDefault w in
  let link := sectionLink (shortenNotePath target (vault w)) sectionId selection in
  let e1 := focus (replaceSelection link (editor w)) in
  editor (run (addSectionWikilink_to (Some target)) env w)
  = setSelection
      (mkPos (line (getCursor e1)) (ch (getCursor e1) - Z.of_nat (length selection) - 2))
      (mkPos (line (getCursor e1)) (ch (getCursor e1) - 2)) e1
  /\ vault (run (addSectionWikilink_to (Some target)) env w)
     = process (vault w) target
         (appendSection target (viewFile w) (sectionSeparator (settings w))
                        selection sectionId)
  /\ settings (run (addSectionWikilink_to (Some target)) env w) = settings w
  /\ dataFile (run (addSectionWikilink_to (Some target)) env w) = dataFile w
  /\ viewFile (run (addSectionWikilink_to (Some target)) env w) = viewFile w.
Proof.
  intros typed sectionId selection link e1.
  unfold addSectionWikilink_to. step_monad.
  fold typed.
  set (w1 := mkWorld (editor w) (viewFile w) (vault w) (settings w) (dataFile w)
                     (uiLog w ++ [OpenPrompt sectionIdTitle defaultPromptPlaceholder])
                     (randomCalls w)).
  pose proof (resolveSectionId_frame typed env w1) as (E1 & E2 & E3 & E4 & E5).
  pose proof (resolveSectionId_afterEvents typed env w
                [OpenPrompt sectionIdTitle defaultPromptPlaceholder]) as Eid.
  change (afterEvents _ w) with w1 in Eid.
  destruct (resolveSectionId typed env w1) as [id w2].
  step_monad. subst w1. step_monad.
  unfold e1, link, selection, selectionOrDefault, sectionId.
  rewrite <- Eid, E1, E2, E3, E4, E5. now repeat split.
Qed.

Lemma addSectionWikilink_to_none (env : Env) (w : World) :
  run (addSectionWikilink_to None) env w = afterEvents [Notice (js "Note not found.")] w.
Proof. reflexivity. Qed.

(** The section command, seen from its first prompt: it goes on with the
    target resolved, in a world that differs by the log only. *)
Lemma addSectionWikilink_resolved (env : Env) (w : World) :
  exists es,
    run addSectionWikilink env w
    = match resolveSectionTarget env w with
      | Some target => run (addSectionWikilink_to (Some target)) env (afterEvents es w)
      | None => run (ret tt) env (afterEvents es w)
      end.
Proof.
  unfold addSectionWikilink, resolveSectionTarget. step_monad.
  destruct (length (sectionNotes (settings w)) =? 0).
  - step_monad.
    destruct (noteSelection (user env) targetPlaceholder (getMarkdownFiles (vault w)))
      as [t|].
    + eexists [_]. reflexivity.
    + eexists [_; _]. unfold addSectionWikilink_to. step_monad.
      unfold afterEvents. now rewrite <- app_assoc.
  - step_monad.
    destruct (textSelection (user env) targetPlaceholder (sectionNotes (settings w)))
      as [sel|].
    + destruct (JsString.truthy sel).
      * step_monad. destruct (getFileByPath (vault w) sel) as [t|].
        -- eexists [_]. reflexivity.
        -- eexists [_; _]. unfold addSectionWikilink_to. step_monad.
           unfold afterEvents. now rewrite <- app_assoc.
      * eexists [_; _]. step_monad. unfold afterEvents. now rewrite <- app_assoc.
    + eexists [_; _]. step_monad. unfold afterEvents. now rewrite <- app_assoc.
Qed.

Lemma addSectionWikilink_abort (env : Env) (w : World) :
  resolveSectionTarget env w = None -> sameDocuments w (run addSectionWikilink env w).
Proof.
  intro E. destruct (addSectionWikilink_resolved env w) as [es ->].
  rewrite E. now repeat split.
Qed.

Lemma addSectionWikilink_spec (env : Env) (w : World) (target : TFile) :
  resolveSectionTarget env w = Some target ->
  let typed := answerPrompt (user env) sectionIdTitle defaultPromptPlaceholder in
  let sectionId := fst (resolveSectionId typed env w) in
  let selection := selectionOrDefault w in
  let link := sectionLink (shortenNotePath target (vault w)) sectionId selection in
  let e1 := focus (replaceSelection link (editor w)) in
  editor (run addSectionWikilink env w)
  = setSelection
      (mkPos (line (getCursor e1)) (ch (getCursor e1) - Z.of_nat (length selection) - 2))
      (mkPos (line (getCursor e1)) (ch (getCursor e1) - 2)) e1
  /\ vault (run addSectionWikilink env w)
     = process (vault w) target
         (appendSection target (viewFile w) (sectionSeparator (settings w))
                        selection sectionId)
  /\ settings (run addSectionWikilink env w) = settings w
  /\ dataFile (run addSectionWikilink env w) = dataFile w
  /\ viewFile (run addSectionWikilink env w) = viewFile w.
Proof.
  intros E typed sectionId selection link e1.
  destruct (addSectionWikilink_resolved env w) as [es ->]. rewrite E.
  pose proof (addSectionWikilink_to_spec target env (afterEvents es w)) as H.
  cbv zeta in H. rewrite resolveSectionId_afterEvents in H. exact H.
Qed.

(** No command touches the settings or what is stored of them. *)
Lemma command_keeps_settings (c : Command) (env : Env) (w : World) :
  settings (run (editorCallback c) env w) = settings w
  /\ dataFile (run (editorCallback c) env w) = dataFile w.
Proof.
  destruct c; cbn [editorCallback].
  - destruct (resolveSectionTarget env w) as [t|] eqn:E.
    + now destruct (addSectionWikilink_spec env w t E) as (_ & _ & Hs & Hd & _).
    + now destruct (addSectionWikilink_abort env w E) as (_ & _ & _ & Hs & Hd).
  - pose proof (promptForCharacter_frame (characterPools (settings w)) env w) as Hf.
    unfold addCharacterReference. step_monad.
    destruct (promptForCharacter (characterPools (settings w)) env w) as [[t|] w1];
      destruct Hf as (_ & _ & _ & Hs & Hd); now split.
  - pose proof (promptForCharacter_frame (characterPools (settings w)) env w) as Hf.
    unfold addCharacterDiag. step_monad.
    destruct (promptForCharacter (characterPools (settings w)) env w) as [[t|] w1];
      destruct Hf as (_ & _ & _ & Hs & Hd); now split.
  - now split.
Qed.

(** [promptForCharacter] opens no text prompt. *)
Lemma promptForCharacter_answering (pools : list CharacterPool) (answer : option jstr)
    (env : Env) (w : World) :
  promptForCharacter pools (answering answer env) w = promptForCharacter pools env w.
Proof.
  unfold promptForCharacter.
  destruct (length (getActiveCharNotes pools) =? 0); [reflexivity|].
  step_monad. unfold answering at 1. cbn [user].
  change (textSelection _ characterPlaceholder (getActiveCharNotes pools))
    with (textSelection (user env) characterPlaceholder (getActiveCharNotes pools)).
  destruct (textSelection (user env) characterPlaceholder (getActiveCharNotes pools))
    as [sel|]; [|reflexivity].
  destruct (JsString.truthy sel); [|reflexivity].
  step_monad. destruct (getFileByPath (vault w) sel); reflexivity.
Qed.

(** A text prompt that resolves with no value has the effect of one that
    resolves with the empty string. *)
Lemma absent_answer_is_blank (c : Command) (env : Env) (w : World) :
  run (editorCallback c) (answering None env) w
  = run (editorCallback c) (answering (Some []) env) w.
Proof.
  destruct c; cbn [editorCallback].
  - unfold addSectionWikilink. step_monad.
    destruct (length (sectionNotes (settings w)) =? 0); step_monad.
    + destruct (noteSelection _ _ _); reflexivity.
    + destruct (textSelection _ _ _) as [sel|]; [|reflexivity].
      destruct (JsString.truthy sel); [|reflexivity].
      step_monad. destruct (getFileByPath (vault w) sel); reflexivity.
  - unfold addCharacterReference. step_monad. rewrite !promptForCharacter_answering.
    destruct (promptForCharacter _ env w) as [[t|] w1]; reflexivity.
  - unfold addCharacterDiag. step_monad. rewrite !promptForCharacter_answering.
    destruct (promptForCharacter _ env w) as [[t|] w1]; reflexivity.
  - reflexivity.
Qed.

(* ----------------------------------------------------------------- *)
(** *** Cancelled prompts *)

(** C1, as the code has it: no command changes the settings; when the
    selection of the character or of the target note resolves with no value,
    the command stops with the document, the open file, the notes and the
    settings as they were; a text prompt (alias, section ID) that resolves
    with no value does not stop the command, which goes on as for a blank
    answer and makes its edit: the plain link is put into the editor, and
    for the section command the anchor link with a random ID is put into
    the editor and the section appended to the target note. *)
Theorem C1_cancelled_selection (env : Env) (w : World) :
  (forall c,
      settings (run (editorCallback c) env w) = settings w
      /\ dataFile (run (editorCallback c) env w) = dataFile w)
  /\ (textSelection (user env) characterPlaceholder
        (getActiveCharNotes (characterPools (settings w))) = None ->
      sameDocuments w (run addCharacterReference env w)
      /\ sameDocuments w (run addCharacterDiag env w))
  /\ (sectionNotes (settings w) <> [] ->
      textSelection (user env) targetPlaceholder (sectionNotes (settings w)) = None ->
      sameDocuments w (run addSectionWikilink env w))
  /\ (sectionNotes (settings w) = [] ->
      noteSelection (user env) targetPlaceholder (getMarkdownFiles (vault w)) = None ->
      sameDocuments w (run addSectionWikilink env w))
  /\ (forall c,
        run (editorCallback c) (answering None env) w
        = run (editorCallback c) (answering (Some []) env) w)
  /\ (forall target,
        fst (promptForCharacter (characterPools (settings w)) env w) = Some target ->
        answerPrompt (user env) aliasTitle (basename target) = None ->
        let link := js "[[" ++ shortenNotePath target (vault w) ++ js "]]" in
        editor (run addCharacterReference env w)
        = focus (replaceSelection link (editor w))
        /\ exists position,
             editor (run addCharacterDiag env w)
             = setCursor position
                 (focus (replaceRange (dialogBlock link) (getCursor (editor w))
                                      (editor w))))
  /\ (forall target,
        resolveSectionTarget env w = Some target ->
        answerPrompt (user env) sectionIdTitle defaultPromptPlaceholder = None ->
        let sectionId := randomSectionId (random env (randomCalls w)) in
        let link := sectionLink (shortenNotePath target (vault w)) sectionId
                      (selectionOrDefault w) in
        (exists anchor head,
            editor (run addSectionWikilink env w)
            = setSelection anchor head (focus (replaceSelection link (editor w))))
        /\ vault (run addSectionWikilink env w)
           = process (vault w) target
               (appendSection target (viewFile w) (sectionSeparator (settings w))
                              (selectionOrDefault w) sectionId)).
Proof.
  split; [|split; [|split; [|split; [|split; [|split]]]]];
    [| | | | | intros target Et Ea link; split
             | intros target Et Ea sectionId link; split].
  6: { rewrite (addCharacterReference_inserts env w target Et), Ea. reflexivity. }
  6: { pose proof (addCharacterDiag_inserts env w target Et) as Hd. cbv zeta in Hd.
       rewrite Ea in Hd. eexists. exact Hd. }
  6: { destruct (addSectionWikilink_spec env w target Et) as (He & _).
       rewrite Ea in He. do 2 eexists. exact He. }
  6: { destruct (addSectionWikilink_spec env w target Et) as (_ & Hv & _).
       rewrite Ea in Hv. exact Hv. }
  - intro c. apply command_keeps_settings.
  - intro E.
    pose proof (promptForCharacter_cancel (characterPools (settings w)) env w E) as Hn.
    rewrite (addCharacterReference_abort env w Hn), (addCharacterDiag_abort env w Hn).
    split; apply promptForCharacter_frame.
  - intros NE E. apply addSectionWikilink_abort. unfold resolveSectionTarget.
    destruct (sectionNotes (settings w)) as [|n l]; [contradiction|].
    cbn [length Nat.eqb]. now rewrite E.
  - intros E0 E. apply addSectionWikilink_abort. unfold resolveSectionTarget.
    now rewrite E0.
  - intro c. apply absent_answer_is_blank.
Qed.

(* ----------------------------------------------------------------- *)
(** *** Link markup *)

(** C7: the markup is [[[shortPath]]] for a plain reference,
    [[[shortPath|alias]]] for an aliased one and
    [[[shortPath#^sectionId|displayText]]] for a section anchor, the alias
    and the display text being copied as they are; these are the texts the
    three commands put into the editor. *)
Theorem C7_link_markup :
  (forall shortPath,
      characterLink shortPath None = js "[[" ++ shortPath ++ js "]]"
      /\ characterLink shortPath (Some []) = js "[[" ++ shortPath ++ js "]]")
  /\ (forall shortPath alias,
        alias <> [] ->
        characterLink shortPath (Some alias)
        = js "[[" ++ shortPath ++ js "|" ++ alias ++ js "]]")
  /\ (forall shortPath sectionId displayText,
        sectionLink shortPath sectionId displayText
        = js "[[" ++ shortPath ++ js "#^" ++ sectionId ++ js "|" ++ displayText
             ++ js "]]")
  /\ characterLink (js "Note") None = js "[[Note]]"
  /\ characterLink (js "Note") (Some (js "Al")) = js "[[Note|Al]]"
  /\ sectionLink (js "Note") (js "id1") (js "Sel") = js "[[Note#^id1|Sel]]"
  /\ characterLink (js "Note") (Some (js "a|b]]")) = js "[[Note|a|b]]]]"
  /\ (forall env w target,
        fst (promptForCharacter (characterPools (settings w)) env w) = Some target ->
        let link := characterLink (shortenNotePath target (vault w))
                      (answerPrompt (user env) aliasTitle (basename target)) in
        editor (run addCharacterReference env w)
        = focus (replaceSelection link (editor w))
        /\ exists position,
             editor (run addCharacterDiag env w)
             = setCursor position
                 (focus (replaceRange (dialogBlock link) (getCursor (editor w))
                                      (editor w))))
  /\ (forall env w target,
        resolveSectionTarget env w = Some target ->
        let sectionId :=
          fst (resolveSectionId
                 (answerPrompt (user env) sectionIdTitle defaultPromptPlaceholder) env w) in
        let link := sectionLink (shortenNotePath target (vault w)) sectionId
                      (selectionOrDefault w) in
        exists anchor head,
          editor (run addSectionWikilink env w)
          = setSelection anchor head (focus (replaceSelection link (editor w)))).
Proof.
  split; [|split; [|split; [|split; [|split; [|split; [|split; [|split]]]]]]];
    try reflexivity.
  - intro shortPath. now split.
  - intros shortPath [|c alias] NE; [contradiction | reflexivity].
  - intros env w target E link. split.
    + now apply addCharacterReference_inserts.
    + eexists. now apply addCharacterDiag_inserts.
  - intros env w target E sectionId link.
    destruct (addSectionWikilink_spec env w target E) as (He & _).
    do 2 eexists. exact He.
Qed.

(* ----------------------------------------------------------------- *)
(** *** Appending the section *)

Lemma notViewFile_false_iff (target : TFile) (file : option TFile) :
  notViewFile target file = false <-> exists f, file = Some f /\ path f = path target.
Proof.
  unfold notViewFile, sameFile. destruct file as [f|].
  - rewrite negb_false_iff, eqb_eq. split.
    + intro E. now exists f.
    + intros (g & [= <-] & E). now symmetry.
  - split; [discriminate | intros (f & E & _); discriminate].
Qed.

(** C5, as the code has it: the existing content is trimmed at its end
    exactly when the target note is not the file of the view; if what is
    kept is empty the result is [selection ^sectionId] and a line feed,
    without separator, else it is what is kept, the separator, and that
    line; this is the function the command hands to the vault for the
    target note. *)
Theorem C5_appendSection (target : TFile) (file : option TFile)
    (separator selection sectionId content : jstr) :
  let kept := if notViewFile target file then JsString.trimEnd content else content in
  (kept = [] ->
     appendSection target file separator selection sectionId content
     = selection ++ js " ^" ++ sectionId ++ LF)
  /\ (kept <> [] ->
      appendSection target file separator selection sectionId content
      = kept ++ separator ++ selection ++ js " ^" ++ sectionId ++ LF)
  /\ (notViewFile target file = true ->
      forallb JsString.isWhiteSpace content = true ->
      appendSection target file separator selection sectionId content
      = selection ++ js " ^" ++ sectionId ++ LF)
  /\ (notViewFile target file = false
      <-> exists f, file = Some f /\ path f = path target)
  /\ (exists trail,
        content = JsString.trimEnd content ++ trail
        /\ forallb JsString.isWhiteSpace trail = true
        /\ (forall r c, JsString.trimEnd content = r ++ [c] ->
                        JsString.isWhiteSpace c = false))
  /\ (forall env w,
        resolveSectionTarget env w = Some target ->
        vault (run addSectionWikilink env w)
        = process (vault w) target
            (appendSection target (viewFile w) (sectionSeparator (settings w))
               (selectionOrDefault w)
               (fst (resolveSectionId
                       (answerPrompt (user env) sectionIdTitle defaultPromptPlaceholder)
                       env w)))).
Proof.
  intro kept. split; [|split; [|split; [|split; [|split]]]].
  - intro E. unfold appendSection. fold kept. now rewrite E.
  - intro NE. unfold appendSection. fold kept.
    destruct kept; [contradiction | reflexivity].
  - intros Hn Hws. unfold appendSection. rewrite Hn.
    apply trimEnd_nil_iff in Hws. now rewrite Hws.
  - apply notViewFile_false_iff.
  - apply trimEnd_spec.
  - intros env w E.
    now destruct (addSectionWikilink_spec env w target E) as (_ & Hv & _).
Qed.

End CommandProps.

(* ----------------------------------------------------------------- *)
(** ** The settings tab *)

Lemma arrayContains_In (a : list jstr) (x : jstr) :
  arrayContains a x = true <-> In x a.
Proof.
  unfold arrayContains. rewrite existsb_exists. split.
  - intros (y & Hy & E). apply eqb_eq in E. now subst.
  - intro H. exists x. split; [assumption | apply eqb_refl].
Qed.

Lemma NoDup_push {A : Type} (l : list A) (x : A) :
  NoDup l -> ~ In x l -> NoDup (l ++ [x]).
Proof.
  intros Hl Hx. induction Hl as [|y l Hy Hl IH]; simpl.
  - constructor; [intros [] | constructor].
  - constructor.
    + rewrite in_app_iff. intros [H | [-> | []]]; [contradiction|].
      apply Hx. now left.
    + apply IH. intro H. apply Hx. now right.
Qed.

Lemma NoDup_spliceOne {A : Type} (i : nat) (l : list A) :
  NoDup l -> NoDup (spliceOne i l).
Proof.
  unfold spliceOne. revert i; induction l as [|x l IH]; intros i Hl.
  - now destruct i.
  - inversion Hl as [|? ? Hx Hl']; subst. destruct i as [|i].
    + exact Hl'.
    + cbn [firstn skipn app]. constructor.
      * intro H. apply Hx. apply in_app_or in H as [H | H].
        -- revert H. clear. revert i. induction l as [|y l IH]; intros [|i] H;
             simpl in *; try tauto. destruct H as [-> | H]; eauto.
        -- revert H. clear. revert i. induction l as [|y l IH]; intros i H.
           ++ now destruct i.
           ++ destruct i as [|i]; simpl in H; [now right | right; eauto].
      * now apply IH.
Qed.

Section SettingsProps.

Context {host : Host}.

Ltac step_monad :=
  unfold TextSuggestModal_awaitSelection, NoteSuggestModal_awaitSelection,
    PromptModal_awaitSelection, ConfirmModal_awaitConfirmation,
    loadSettings, setPools, setSectionNotes, withPool in *;
  unfold run, bind, ret, notice, logEvent, getWorld, editorDo, setVault, setSettings,
    mathRandom, saveSettings in *;
  cbn [fst snd editor viewFile vault settings dataFile uiLog randomCalls] in *.

(** Saving settings whose [sectionNotes] are unique keeps the promise. *)
Ltac keep_unique H :=
  first
    [ exact H
    | destruct H as [? ?]; unfold sectionNotesUnique;
      cbn [settings dataFile storeSettings stored_sectionNotes orElse sectionNotes];
      split; assumption ].

Lemma loadSettings_unique (env : Env) (w : World) :
  match dataFile w with
  | Some d => NoDup (orElse (stored_sectionNotes d) [])
  | None => True
  end ->
  sectionNotesUnique (run loadSettings env w).
Proof.
  intro Hd. unfold sectionNotesUnique. step_monad. split; [|exact Hd].
  destruct (dataFile w) as [d|]; cbn [mergeSettings].
  - cbn [sectionNotes]. destruct (stored_sectionNotes d) as [l|]; cbn [orElse] in *.
    + exact Hd.
    + repeat constructor. intros [].
  - repeat constructor. intros [].
Qed.

(** "Add Note" appends a path that is not there yet, and refuses, with a
    notice, one that is. *)
Lemma onAddNote_spec (env : Env) (w : World) (note : TFile) :
  noteSelection (user env) defaultNotePlaceholder (getMarkdownFiles (vault w)) = Some note ->
  (In (path note) (sectionNotes (settings w)) ->
     settings (run onAddNote env w) = settings w
     /\ dataFile (run onAddNote env w) = dataFile w
     /\ exists shown,
          uiLog (run onAddNote env w)
          = uiLog w ++ shown ++ [Notice (js "Note already added.")])
  /\ (~ In (path note) (sectionNotes (settings w)) ->
      sectionNotes (settings (run onAddNote env w))
      = sectionNotes (settings w) ++ [path note]).
Proof.
  intro E. unfold onAddNote. step_monad. rewrite E. step_monad.
  destruct (arrayContains (sectionNotes (settings w)) (path note)) eqn:Ec.
  - apply arrayContains_In in Ec. split; [|contradiction].
    intros _. step_monad. repeat split.
    eexists [_]. now rewrite <- app_assoc.
  - split.
    + intro H. apply arrayContains_In in H. congruence.
    + intros _. reflexivity.
Qed.

Lemma onSettingsEvent_unique (e : SettingsEvent) (env : Env) (w : World) :
  sectionNotesUnique w -> sectionNotesUnique (run (onSettingsEvent e) env w).
Proof.
  intro H. destruct e; cbn [onSettingsEvent].
  - unfold onAddPool. step_monad.
    destruct (answerPrompt (user env) (js "Enter pool name:") defaultPromptPlaceholder)
      as [[|c n]|]; cbn [JsString.truthy]; step_monad; keep_unique H.
  - unfold onEditPool. step_monad.
    destruct (nth_error (characterPools (settings w)) i) as [pool|]; [|keep_unique H].
    step_monad.
    destruct (answerPrompt (user env) (js "Enter the new pool name:") (name pool))
      as [[|c n]|]; cbn [JsString.truthy]; step_monad; keep_unique H.
  - unfold onAddCharacter. step_monad.
    destruct (nth_error (characterPools (settings w)) i) as [pool|]; [|keep_unique H].
    step_monad.
    destruct (noteSelection (user env) (js "Search for a character's note...")
                (getMarkdownFiles (vault w))) as [n|]; step_monad; keep_unique H.
  - unfold onRemovePool. step_monad.
    destruct (nth_error (characterPools (settings w)) i) as [pool|]; [|keep_unique H].
    step_monad.
    destruct (answerConfirm (user env) _ _) as [[|]|]; step_monad; keep_unique H.
  - unfold onTogglePool. step_monad.
    destruct (nth_error (characterPools (settings w)) i) as [pool|]; step_monad;
      keep_unique H.
  - unfold onRemoveCharacter. step_monad.
    destruct (nth_error (characterPools (settings w)) i) as [pool|]; step_monad;
      keep_unique H.
  - unfold onChangeSeparator. step_monad. keep_unique H.
  - unfold onAddNote. step_monad.
    destruct (noteSelection (user env) defaultNotePlaceholder (getMarkdownFiles (vault w)))
      as [n|]; step_monad; [|keep_unique H].
    destruct (arrayContains (sectionNotes (settings w)) (path n)) eqn:Ec; step_monad.
    + keep_unique H.
    + destruct H as [Hn _].
      assert (NoDup (sectionNotes (settings w) ++ [path n])) as Hn'.
      { apply NoDup_push; [exact Hn|]. intro Hin.
        apply arrayContains_In in Hin. congruence. }
      unfold sectionNotesUnique.
      cbn [settings dataFile storeSettings stored_sectionNotes orElse sectionNotes].
      now split.
  - unfold onRemoveNote. step_monad. destruct H as [Hn _].
    pose proof (NoDup_spliceOne i _ Hn) as Hn'.
    unfold sectionNotesUnique.
    cbn [settings dataFile storeSettings stored_sectionNotes orElse sectionNotes].
    now split.
Qed.

Lemma reachable_unique (w : World) : reachable w -> sectionNotesUnique w.
Proof.
  induction 1 as [env w Hd | env w c _ IH | env w e _ IH | env w _ IH | w ed file v _ IH].
  - apply loadSettings_unique. now rewrite Hd.
  - destruct (command_keeps_settings c env w) as [Es Ed].
    unfold sectionNotesUnique. rewrite Es, Ed. exact IH.
  - now apply onSettingsEvent_unique.
  - apply loadSettings_unique. apply IH.
  - exact IH.
Qed.

(** C8: in every reachable world no path occurs twice in [sectionNotes],
    in memory or in what is stored; "Add Note" looks the path up first and
    refuses one that is present, and appends one that is not. *)
Theorem C8_sectionNotes_unique (w : World) :
  reachable w ->
  NoDup (sectionNotes (settings w))
  /\ (forall d l, dataFile w = Some d -> stored_sectionNotes d = Some l -> NoDup l)
  /\ (forall env note,
        noteSelection (user env) defaultNotePlaceholder (getMarkdownFiles (vault w))
        = Some note ->
        (In (path note) (sectionNotes (settings w)) ->
           settings (run onAddNote env w) = settings w
           /\ exists shown,
                uiLog (run onAddNote env w)
                = uiLog w ++ shown ++ [Notice (js "Note already added.")])
        /\ (~ In (path note) (sectionNotes (settings w)) ->
            sectionNotes (settings (run onAddNote env w))
            = sectionNotes (settings w) ++ [path note])).
Proof.
  intro Hr. destruct (reachable_unique w Hr) as [Hn Hd]. split; [exact Hn|]. split.
  - intros d l Ed El. rewrite Ed in Hd. now rewrite El in Hd.
  - intros env note E. destruct (onAddNote_spec env w note E) as [Hin Hout]. split.
    + intro H. destruct (Hin H) as (Hs & _ & Hl). now split.
    + exact Hout.
Qed.

End SettingsProps.

(* ================================================================= *)
(** * The properties at work on a text buffer *)

Lemma C1_cancelled_selection_witness :
  sameDocuments castWorld (run addCharacterReference closingEnv castWorld)
  /\ sameDocuments castWorld (run addSectionWikilink closingEnv castWorld)
  /\ editor (run addCharacterReference castEnv castWorld)
     = TextBuffer.focus (TextBuffer.replaceSelection (js "[[Cast/Hero]]") TextBuffer.empty)
  /\ vault (run addSectionWikilink castEnv castWorld)
     = process castVault villainNote
         (appendSection villainNote None (sectionSeparator DEFAULT_SETTINGS)
                        (js "Replace this") (js "abc123")).
Proof.
  pose proof (@C1_cancelled_selection TextBuffer.host closingEnv castWorld)
    as (_ & Hchar & Hsection & _).
  pose proof (@C1_cancelled_selection TextBuffer.host castEnv castWorld)
    as (_ & _ & _ & _ & _ & Halias & Hid).
  split; [|split; [|split]].
  - apply Hchar. reflexivity.
  - apply Hsection; [discriminate | reflexivity].
  - apply (Halias heroNote); reflexivity.
  - apply (Hid villainNote); reflexivity.
Defined.

(** C1 as stated fails at the alias prompt and at the section ID prompt:
    each resolves with no value, and the command goes on to edit the
    document, and the target note for the section command. *)
Lemma C1_counterexample :
  answerPrompt (user castEnv) aliasTitle (basename heroNote) = None
  /\ In (OpenPrompt aliasTitle (basename heroNote))
        (uiLog (run addCharacterReference castEnv castWorld))
  /\ TextBuffer.text (editor (run addCharacterReference castEnv castWorld))
     = js "[[Cast/Hero]]"
  /\ editor (run addCharacterReference castEnv castWorld) <> editor castWorld
  /\ answerPrompt (user castEnv) sectionIdTitle defaultPromptPlaceholder = None
  /\ In (OpenPrompt sectionIdTitle defaultPromptPlaceholder)
        (uiLog (run addSectionWikilink castEnv castWorld))
  /\ TextBuffer.text (editor (run addSectionWikilink castEnv castWorld))
     = js "[[Villain#^abc123|Replace this]]"
  /\ vault (run addSectionWikilink castEnv castWorld) <> vault castWorld.
Proof.
  split; [reflexivity|]. split; [vm_compute; tauto|]. split; [reflexivity|].
  split; [discriminate|]. split; [reflexivity|]. split; [vm_compute; tauto|].
  split; [reflexivity | discriminate].
Qed.

Lemma C4_normalizeSectionId_witness :
  resolveSectionId (Some (js "##")) castEnv castWorld
  = (js "abc123", afterRandom castWorld).
Proof.
  pose proof (@C4_normalizeSectionId TextBuffer.host)
    as (_ & _ & _ & _ & _ & _ & Hgen & _).
  apply (Hgen (js "##") castEnv castWorld). reflexivity.
Defined.

Lemma C5_appendSection_witness :
  appendSection villainNote None (sectionSeparator DEFAULT_SETTINGS)
                (js "Sel") (js "id1") (js "Text  ")
  = js "Text" ++ sectionSeparator DEFAULT_SETTINGS ++ js "Sel ^id1" ++ LF.
Proof.
  pose proof (@C5_appendSection TextBuffer.host villainNote None
                (sectionSeparator DEFAULT_SETTINGS) (js "Sel") (js "id1") (js "Text  "))
    as (_ & Hkept & _).
  apply Hkept. discriminate.
Defined.

(** C5 as stated fails for a note of white space that is not the open one:
    the content is not empty, yet no separator is written. *)
Lemma C5_counterexample :
  js " " <> []
  /\ notViewFile villainNote None = true
  /\ appendSection villainNote None (sectionSeparator DEFAULT_SETTINGS)
                   (js "Sel") (js "id1") (js " ")
     = js "Sel ^id1" ++ LF
  /\ appendSection villainNote None (sectionSeparator DEFAULT_SETTINGS)
                   (js "Sel") (js "id1") (js " ")
     <> JsString.trimEnd (js " ") ++ sectionSeparator DEFAULT_SETTINGS
        ++ js "Sel" ++ js " ^" ++ js "id1" ++ LF.
Proof.
  split; [discriminate|]. split; [reflexivity|]. split; [reflexivity | discriminate].
Qed.

Lemma C7_link_markup_witness :
  characterLink (js "Note") (Some (js "Al")) = js "[[" ++ js "Note" ++ js "|" ++ js "Al" ++ js "]]"
  /\ editor (run addCharacterReference castEnv castWorld)
     = TextBuffer.focus (TextBuffer.replaceSelection (js "[[Cast/Hero]]") TextBuffer.empty).
Proof.
  pose proof (@C7_link_markup TextBuffer.host)
    as (_ & Halias & _ & _ & _ & _ & _ & Hchar & _).
  split.
  - apply Halias. discriminate.
  - apply (Hchar castEnv castWorld heroNote). reflexivity.
Defined.

(** A suggestion past the first thousand is not listed, whatever the query. *)
Example getSuggestions_beyond_limit :
  @TextSuggestModal_getSuggestions TextBuffer.host
    (repeat (js "a") 1000 ++ [js "b"]) (js "B") = []
  /\ @TextSuggestModal_getSuggestions TextBuffer.host
       (repeat (js "a") 999 ++ [js "b"]) (js "B") = [js "b"].
Proof. split; vm_compute; reflexivity. Qed.

Lemma C8_sectionNotes_unique_witness :
  NoDup (sectionNotes (settings (run onAddNote castEnv (run loadSettings castEnv castWorld)))).
Proof.
  apply (@C8_sectionNotes_unique TextBuffer.host).
  apply reach_settings with (e := ClickAddNote). apply reach_install. reflexivity.
Defined.

Lemma C9_promptForCharacter_empty_witness :
  promptForCharacter disabledPools castEnv castWorld
  = (None, afterEvents [Notice (js "No active characters to reference.")] castWorld).
Proof.
  apply (@C9_promptForCharacter_empty TextBuffer.host disabledPools castEnv castWorld).
  intros p [<- | [<- | []]]; [discriminate | reflexivity].
Defined.

(* ================================================================= *)
(** * Further properties *)

(** Unfolds the monad, its primitive effects and the modals. *)
Ltac run_handler :=
  unfold TextSuggestModal_awaitSelection, NoteSuggestModal_awaitSelection,
    PromptModal_awaitSelection, ConfirmModal_awaitConfirmation,
    loadSettings, setPools, setSectionNotes, withPool in *;
  unfold run, bind, ret, notice, logEvent, getWorld, editorDo, setVault, setSettings,
    mathRandom, saveSettings in *;
  cbn [fst snd editor viewFile vault settings dataFile uiLog randomCalls] in *.

(** Runs a handler through every branch it has. *)
Ltac each_branch :=
  repeat (run_handler;
          match goal with
          | |- context [match ?x with _ => _ end] =>
              lazymatch x with
              | context [match _ with _ => _ end] => fail
              | _ => destruct x
              end
          end);
  run_handler.

(* ----------------------------------------------------------------- *)
(** ** Persistence of the settings *)

(** Loading what was saved gives the settings back. *)
Lemma mergeSettings_storeSettings (s : WriterAssistSettings) :
  mergeSettings (Some (storeSettings s)) = s.
Proof. now destruct s. Qed.

Section PersistenceProps.

Context {host : Host}.

(** A handler of the settings tab leaves the editor, the view, the vault
    and the random source alone, and either changes nothing of the settings
    or saves the settings it leaves. *)
Lemma onSettingsEvent_frame (e : SettingsEvent) (env : Env) (w : World) :
  sameWorkspace w (run (onSettingsEvent e) env w)
  /\ ((settings (run (onSettingsEvent e) env w) = settings w
       /\ dataFile (run (onSettingsEvent e) env w) = dataFile w)
      \/ dataFile (run (onSettingsEvent e) env w)
         = Some (storeSettings (settings (run (onSettingsEvent e) env w)))).
Proof.
  unfold sameWorkspace.
  destruct e; cbn [onSettingsEvent];
    unfold onAddPool, onEditPool, onAddCharacter, onRemovePool, onTogglePool,
      onRemoveCharacter, onChangeSeparator, onAddNote, onRemoveNote;
    each_branch; (split; [now repeat split | (left; now split) || (right; reflexivity)]).
Qed.

Lemma settingsInSync_step (e : SettingsEvent) (env : Env) (w : World) :
  settingsInSync w -> settingsInSync (run (onSettingsEvent e) env w).
Proof.
  unfold settingsInSync. intro H.
  destruct (onSettingsEvent_frame e env w) as (_ & [[Es Ed] | Ed]).
  - now rewrite Es, Ed.
  - rewrite Ed. apply mergeSettings_storeSettings.
Qed.

Lemma reachable_inSync (w : World) : reachable w -> settingsInSync w.
Proof.
  unfold settingsInSync.
  induction 1 as [env w Hd | env w c _ IH | env w e _ IH | env w _ IH | w ed file v _ IH].
  - reflexivity.
  - destruct (command_keeps_settings c env w) as [Es Ed]. now rewrite Es, Ed.
  - now apply settingsInSync_step.
  - reflexivity.
  - exact IH.
Qed.

(** X1: in every reachable world the stored data is in step with the
    settings in memory, so loading the plugin again restores the very same
    settings: no change made in the settings tab is lost. *)
Theorem X1_reload_restores_settings (w : World) (env : Env) :
  reachable w ->
  mergeSettings (dataFile w) = settings w
  /\ settings (run loadSettings env w) = settings w.
Proof.
  intro Hr. pose proof (reachable_inSync w Hr) as H. unfold settingsInSync in H.
  split; [exact H|]. run_handler. exact H.
Qed.

(** X3: no handler of the settings tab touches the editor, the file of the
    view, the vault or the random source, whatever the user answers. *)
Theorem X3_settings_tab_keeps_workspace (e : SettingsEvent) (env : Env) (w : World) :
  editor (run (onSettingsEvent e) env w) = editor w
  /\ viewFile (run (onSettingsEvent e) env w) = viewFile w
  /\ vault (run (onSettingsEvent e) env w) = vault w
  /\ randomCalls (run (onSettingsEvent e) env w) = randomCalls w.
Proof. exact (proj1 (onSettingsEvent_frame e env w)). Qed.

End PersistenceProps.

(* ----------------------------------------------------------------- *)
(** ** The separator field *)

Lemma unescapeNewlines_pair (rest : jstr) :
  unescapeNewlines (92%N :: 110%N :: rest) = 10%N :: unescapeNewlines rest.
Proof. reflexivity. Qed.

Lemma unescapeNewlines_other (a b : N) (rest : jstr) :
  ((a =? 92) && (b =? 110))%N = false ->
  unescapeNewlines (a :: b :: rest) = a :: unescapeNewlines (b :: rest).
Proof. intro H. cbn [unescapeNewlines]. now rewrite H. Qed.

(** The first code unit of the result is a line feed or the first one of
    the argument. *)
Lemma unescapeNewlines_head (b : N) (rest : jstr) :
  exists r, unescapeNewlines (b :: rest) = 10%N :: r
            \/ unescapeNewlines (b :: rest) = b :: r.
Proof.
  destruct rest as [|c rest].
  - exists []. now right.
  - destruct ((b =? 92) && (c =? 110))%N eqn:E.
    + apply andb_true_iff in E as [Eb Ec].
      apply N.eqb_eq in Eb, Ec. subst. eexists. left. reflexivity.
    + rewrite (unescapeNewlines_other _ _ _ E). eexists. now right.
Qed.

(** What [unescapeNewlines] returns holds no pair backslash, [n]. *)
Lemma unescapeNewlines_clean (value : jstr) :
  JsString.contains (unescapeNewlines value) escapedNewline = false.
Proof.
  assert (forall n v, length v <= n ->
            JsString.contains (unescapeNewlines v) escapedNewline = false) as H.
  { induction n as [|n IH]; intros v Hv.
    - destruct v; [reflexivity | simpl in Hv; lia].
    - destruct v as [|a [|b rest]]; [reflexivity | |].
      + cbn. now rewrite andb_false_r.
      + destruct ((a =? 92) && (b =? 110))%N eqn:E.
        * apply andb_true_iff in E as [Ea Eb].
          apply N.eqb_eq in Ea, Eb. subst. rewrite unescapeNewlines_pair.
          cbn [JsString.contains JsString.startsWith escapedNewline].
          cbn [N.eqb Pos.eqb andb orb]. apply IH. simpl in Hv. lia.
        * rewrite (unescapeNewlines_other _ _ _ E).
          cbn [JsString.contains]. rewrite (IH (b :: rest)) by (simpl in *; lia).
          rewrite orb_false_r.
          destruct (unescapeNewlines_head b rest) as [r [-> | ->]];
            cbn [JsString.startsWith escapedNewline].
          -- cbn [N.eqb Pos.eqb andb]. apply andb_false_r.
          -- destruct (a =? 92)%N; [|reflexivity]. cbn [andb] in *.
             rewrite E. reflexivity. }
  now apply (H (length value)).
Qed.

(** Showing a separator and reading the field back gives the separator,
    if it holds no pair backslash, [n]. *)
Lemma unescape_escape (s : jstr) :
  JsString.contains s escapedNewline = false ->
  unescapeNewlines (escapeNewlines s) = s.
Proof.
  induction s as [|c s IH]; [reflexivity|].
  cbn [JsString.contains]. intro H. apply orb_false_iff in H as [Hs Hc].
  specialize (IH Hc). cbn [escapeNewlines flat_map].
  fold (escapeNewlines s).
  destruct (c =? 10)%N eqn:Ec.
  - apply N.eqb_eq in Ec. subst c. cbn [app]. rewrite unescapeNewlines_pair.
    now rewrite IH.
  - cbn [app]. destruct s as [|d s'].
    + reflexivity.
    + cbn [escapeNewlines flat_map] in *. fold (escapeNewlines s') in *.
      destruct (d =? 10)%N eqn:Ed; cbn [app] in *.
      * rewrite unescapeNewlines_other; [now rewrite IH|].
        cbn [N.eqb Pos.eqb]. apply andb_false_r.
      * rewrite unescapeNewlines_other; [now rewrite IH|].
        cbn [JsString.startsWith escapedNewline] in Hs.
        destruct (c =? 92)%N; [|reflexivity]. cbn [andb] in *.
        destruct (d =? 110)%N; [discriminate | reflexivity].
Qed.

(** Typing a text without line feed and showing it again gives the text. *)
Lemma escape_unescape (value : jstr) :
  forallb (fun c => negb (c =? 10)%N) value = true ->
  escapeNewlines (unescapeNewlines value) = value.
Proof.
  assert (forall n v, length v <= n ->
            forallb (fun c => negb (c =? 10)%N) v = true ->
            escapeNewlines (unescapeNewlines v) = v) as H.
  { induction n as [|n IH]; intros v Hv Hlf.
    - destruct v; [reflexivity | simpl in Hv; lia].
    - destruct v as [|a [|b rest]]; [reflexivity | |].
      + cbn in *. rewrite andb_true_r in Hlf. apply negb_true_iff in Hlf.
        now rewrite Hlf.
      + cbn [forallb] in Hlf. apply andb_true_iff in Hlf as [Ha Hrest].
        apply negb_true_iff in Ha.
        destruct ((a =? 92) && (b =? 110))%N eqn:E.
        * apply andb_true_iff in E as [Ea Eb].
          apply N.eqb_eq in Ea, Eb. subst. rewrite unescapeNewlines_pair.
          cbn [forallb] in Hrest. apply andb_true_iff in Hrest as [_ Hrest].
          cbn [escapeNewlines flat_map N.eqb Pos.eqb app].
          fold (escapeNewlines (unescapeNewlines rest)).
          rewrite IH; [reflexivity | simpl in Hv; lia | exact Hrest].
        * rewrite (unescapeNewlines_other _ _ _ E).
          cbn [escapeNewlines flat_map].
          fold (escapeNewlines (unescapeNewlines (b :: rest))).
          rewrite Ha. cbn [app].
          rewrite IH; [reflexivity | simpl in *; lia | exact Hrest]. }
  now apply (H (length value)).
Qed.

(** X4: the separator field is a faithful editor of the separator.  What
    [unescapeNewlines] makes of the text typed never holds the pair
    backslash, [n]; a separator without that pair is shown
    ([escapeNewlines]) and read back ([unescapeNewlines]) unchanged; and a
    text typed without line feed is shown again as typed. *)
Theorem X4_separator_roundtrip :
  (forall value, JsString.contains (unescapeNewlines value) escapedNewline = false)
  /\ (forall s,
        JsString.contains s escapedNewline = false ->
        unescapeNewlines (escapeNewlines s) = s)
  /\ (forall value,
        forallb (fun c => negb (c =? 10)%N) value = true ->
        escapeNewlines (unescapeNewlines value) = value).
Proof.
  split; [exact unescapeNewlines_clean | split; [exact unescape_escape | exact escape_unescape]].
Qed.

Section SeparatorProps.

Context {host : Host}.

(** A handler of the settings tab keeps the separator or sets it to a
    value of [unescapeNewlines]. *)
Lemma onSettingsEvent_separator (e : SettingsEvent) (env : Env) (w : World) :
  sectionSeparator (settings (run (onSettingsEvent e) env w)) = sectionSeparator (settings w)
  \/ exists value,
       sectionSeparator (settings (run (onSettingsEvent e) env w)) = unescapeNewlines value.
Proof.
  destruct e; cbn [onSettingsEvent];
    unfold onAddPool, onEditPool, onAddCharacter, onRemovePool, onTogglePool,
      onRemoveCharacter, onChangeSeparator, onAddNote, onRemoveNote;
    each_branch; try (left; reflexivity).
  right. eexists. reflexivity.
Qed.

Lemma reachable_separatorUnescaped (w : World) : reachable w -> separatorUnescaped w.
Proof.
  unfold separatorUnescaped.
  induction 1 as [env w Hd | env w c _ IH | env w e _ IH | env w _ IH | w ed file v _ IH].
  - run_handler. rewrite Hd. now split.
  - destruct (command_keeps_settings c env w) as [Es Ed]. now rewrite Es, Ed.
  - destruct IH as [Hs Hd].
    assert (JsString.contains
              (sectionSeparator (settings (run (onSettingsEvent e) env w)))
              escapedNewline = false) as Hs'.
    { destruct (onSettingsEvent_separator e env w) as [-> | [value ->]];
        [exact Hs | apply unescapeNewlines_clean]. }
    split; [exact Hs'|].
    destruct (onSettingsEvent_frame e env w) as (_ & [[_ Ed] | Ed]); rewrite Ed.
    + exact Hd.
    + exact Hs'.
  - destruct IH as [Hs Hd]. run_handler. split; [|exact Hd].
    destruct (dataFile w) as [d|]; [|reflexivity].
    cbn [mergeSettings sectionSeparator].
    destruct (stored_sectionSeparator d); [exact Hd | reflexivity].
  - exact IH.
Qed.

(** X5: in every reachable world, displaying the settings tab and reading
    the separator field back without typing gives the separator of the
    settings: the field never alters a separator by being shown. *)
Theorem X5_separator_field_stable (w : World) :
  reachable w ->
  unescapeNewlines (separatorFieldValue (settings w)) = sectionSeparator (settings w)
  /\ forall env,
       sectionSeparator
         (settings (run (onChangeSeparator (separatorFieldValue (settings w))) env w))
       = sectionSeparator (settings w).
Proof.
  intro Hr. destruct (reachable_separatorUnescaped w Hr) as [Hs _].
  pose proof (unescape_escape _ Hs) as E. split; [exact E|].
  intro env. unfold onChangeSeparator. run_handler. exact E.
Qed.

End SeparatorProps.

(* ----------------------------------------------------------------- *)
(** ** Pools and the active list *)

Lemma activeMembers_app (a b : list CharacterPool) :
  activeMembers (a ++ b) = activeMembers a ++ activeMembers b.
Proof.
  unfold activeMembers. now rewrite filter_app, map_app, concat_app.
Qed.

Lemma nth_error_split {A : Type} (l : list A) (i : nat) (x : A) :
  nth_error l i = Some x -> l = firstn i l ++ x :: skipn (S i) l.
Proof.
  intro E. pose proof (firstn_skipn i l) as H.
  rewrite (skipn_nth_error l i x E) in H. now symmetry.
Qed.

Lemma updatePool_split (i : nat) (f : CharacterPool -> CharacterPool)
    (pools : list CharacterPool) (p : CharacterPool) :
  nth_error pools i = Some p ->
  updatePool i f pools = firstn i pools ++ f p :: skipn (S i) pools.
Proof.
  revert i; induction pools as [|q pools IH]; intros [|i] E; simpl in *;
    try discriminate.
  - now injection E as ->.
  - now rewrite (IH i E).
Qed.

Lemma updatePool_out_of_range (i : nat) (f : CharacterPool -> CharacterPool)
    (pools : list CharacterPool) :
  nth_error pools i = None -> updatePool i f pools = pools.
Proof.
  revert i; induction pools as [|q pools IH]; intros [|i] E; simpl in *;
    try reflexivity; try discriminate.
  now rewrite (IH i E).
Qed.

(** A change of the name alone does not show in the active list. *)
Lemma activeMembers_updatePool_same (i : nat) (f : CharacterPool -> CharacterPool)
    (pools : list CharacterPool) :
  (forall p, charNotes (f p) = charNotes p /\ isEnabled (f p) = isEnabled p) ->
  activeMembers (updatePool i f pools) = activeMembers pools.
Proof.
  intro Hf. unfold activeMembers.
  revert i; induction pools as [|q pools IH]; intros [|i]; simpl; try reflexivity.
  - destruct (Hf q) as [Ec Ee]. rewrite Ee. destruct (isEnabled q); simpl; [|reflexivity].
    now rewrite Ec.
  - destruct (isEnabled q); simpl; now rewrite IH.
Qed.

Lemma spliceOne_out_of_range {A : Type} (i : nat) (l : list A) :
  length l <= i -> spliceOne i l = l.
Proof.
  intro H. unfold spliceOne. rewrite firstn_all2 by lia.
  rewrite skipn_all2 by lia. apply app_nil_r.
Qed.

Lemma spliceOne_last {A : Type} (l : list A) (x : A) :
  spliceOne (length l) (l ++ [x]) = l.
Proof.
  unfold spliceOne. rewrite firstn_app, Nat.sub_diag, firstn_all.
  rewrite skipn_all2 by (rewrite length_app; simpl; lia).
  cbn [firstn]. now rewrite !app_nil_r.
Qed.

(** Rows before the one removed stay, rows after it move up by one. *)
Lemma spliceOne_lookup {A : Type} (i j : nat) (l : list A) :
  nth_error (spliceOne i l) j = if j <? i then nth_error l j else nth_error l (S j).
Proof.
  unfold spliceOne. revert i j; induction l as [|x l IH]; intros i j.
  - rewrite firstn_nil, skipn_nil. cbn [app].
    destruct (j <? i); now destruct j.
  - destruct i as [|i].
    + reflexivity.
    + destruct j as [|j]; [reflexivity|]. cbn [firstn skipn app nth_error].
      rewrite IH. reflexivity.
Qed.

Lemma spliceOne_length {A : Type} (i : nat) (l : list A) :
  i < length l -> S (length (spliceOne i l)) = length l.
Proof.
  intro H. unfold spliceOne. rewrite length_app, length_firstn, length_skipn. lia.
Qed.

Section PoolProps.

Context {host : Host}.

(** X6: adding a pool and renaming a pool never change the list of
    characters the reference prompt offers, whatever the user types. *)
Theorem X6_add_and_rename_keep_active_list (i : nat) (env : Env) (w : World) :
  getActiveCharNotes (characterPools (settings (run onAddPool env w)))
  = getActiveCharNotes (characterPools (settings w))
  /\ getActiveCharNotes (characterPools (settings (run (onEditPool i) env w)))
     = getActiveCharNotes (characterPools (settings w)).
Proof.
  rewrite !getActiveCharNotes_spec. split.
  - unfold onAddPool. each_branch; try reflexivity.
    cbn [characterPools]. rewrite activeMembers_app. apply app_nil_r.
  - unfold onEditPool. each_branch; try reflexivity.
    cbn [characterPools]. apply activeMembers_updatePool_same.
    intro p. now split.
Qed.

Lemma onTogglePool_pools (i : nat) (value : bool) (env : Env) (w : World) :
  characterPools (settings (run (onTogglePool i value) env w))
  = updatePool i (setEnabled value) (characterPools (settings w)).
Proof.
  unfold onTogglePool. run_handler.
  destruct (nth_error (characterPools (settings w)) i) eqn:E; run_handler.
  - reflexivity.
  - now rewrite updatePool_out_of_range.
Qed.

(** X7: switching pool [i] on or off changes the list the reference prompt
    offers at the place of that pool only: its members are there, in their
    order, exactly when it is switched on. *)
Theorem X7_toggle_pool_active_list (i : nat) (value : bool) (env : Env) (w : World)
    (pool : CharacterPool) :
  nth_error (characterPools (settings w)) i = Some pool ->
  getActiveCharNotes (characterPools (settings (run (onTogglePool i value) env w)))
  = getActiveCharNotes (firstn i (characterPools (settings w)))
    ++ (if value then charNotes pool else [])
    ++ getActiveCharNotes (skipn (S i) (characterPools (settings w))).
Proof.
  intro E. rewrite !getActiveCharNotes_spec, onTogglePool_pools.
  rewrite (updatePool_split i _ _ pool E).
  change (firstn i (characterPools (settings w)) ++ setEnabled value pool
            :: skipn (S i) (characterPools (settings w)))
    with (firstn i (characterPools (settings w)) ++ [setEnabled value pool]
            ++ skipn (S i) (characterPools (settings w))).
  rewrite !activeMembers_app. f_equal. f_equal.
  unfold activeMembers. simpl. destruct value; simpl; [apply app_nil_r | reflexivity].
Qed.

(** X8: a pool is removed only when the user clicks "Yes" in the
    confirmation; "No", or closing the modal, leaves the settings and the
    stored data as they were; "Yes" removes row [i] and no other. *)
Theorem X8_remove_pool_needs_confirmation (i : nat) (env : Env) (w : World)
    (pool : CharacterPool) :
  nth_error (characterPools (settings w)) i = Some pool ->
  let answer :=
    answerConfirm (user env) (js "Remove Pool")
      (js "Are you sure you want to remove the pool " ++ quote ++ name pool
          ++ quote ++ js "?") in
  (answer <> Some true ->
     settings (run (onRemovePool i) env w) = settings w
     /\ dataFile (run (onRemovePool i) env w) = dataFile w)
  /\ (answer = Some true ->
      characterPools (settings (run (onRemovePool i) env w))
      = firstn i (characterPools (settings w)) ++ skipn (S i) (characterPools (settings w))
      /\ S (length (characterPools (settings (run (onRemovePool i) env w))))
         = length (characterPools (settings w))
      /\ sectionNotes (settings (run (onRemovePool i) env w)) = sectionNotes (settings w)
      /\ sectionSeparator (settings (run (onRemovePool i) env w))
         = sectionSeparator (settings w)).
Proof.
  intros E answer. unfold onRemovePool. run_handler. rewrite E. run_handler.
  fold answer. split; intro Ha.
  - destruct answer as [[|]|]; [contradiction | now split | now split].
  - rewrite Ha. run_handler. repeat split.
    apply spliceOne_length. apply nth_error_Some. congruence.
Qed.

(** X9: "Add Character" appends the path of the note chosen to pool [i]
    without looking whether it is a member already, and leaves the other
    pools alone: a note chosen a second time is listed twice. *)
Theorem X9_add_character_no_membership_check (i : nat) (env : Env) (w : World)
    (pool : CharacterPool) (note : TFile) :
  nth_error (characterPools (settings w)) i = Some pool ->
  noteSelection (user env) (js "Search for a character's note...")
    (getMarkdownFiles (vault w)) = Some note ->
  let pools' := characterPools (settings (run (onAddCharacter i) env w)) in
  nth_error pools' i
  = Some (mkCharacterPool (name pool) (charNotes pool ++ [path note]) (isEnabled pool))
  /\ (forall j, j <> i -> nth_error pools' j = nth_error (characterPools (settings w)) j)
  /\ (In (path note) (charNotes pool) -> ~ NoDup (charNotes pool ++ [path note])).
Proof.
  intros E En pools'. unfold pools', onAddCharacter. run_handler. rewrite E.
  run_handler. rewrite En. run_handler.
  rewrite (updatePool_split i _ _ pool E). cbn [characterPools].
  assert (length (firstn i (characterPools (settings w))) = i) as Hlen.
  { rewrite length_firstn. apply Nat.min_l.
    apply Nat.lt_le_incl, nth_error_Some. congruence. }
  split; [|split].
  - rewrite nth_error_app2 by lia. now rewrite Hlen, Nat.sub_diag.
  - intros j Hj.
    rewrite (nth_error_split (characterPools (settings w)) i pool E) at 3.
    destruct (Nat.lt_ge_cases j i) as [Hlt | Hge].
    + now rewrite !nth_error_app1 by lia.
    + rewrite !nth_error_app2 by lia. rewrite Hlen.
      destruct (j - i) as [|k] eqn:Ek; [lia | reflexivity].
  - intros Hin Hnd. apply NoDup_remove_2 in Hnd. rewrite app_nil_r in Hnd.
    contradiction.
Qed.

End PoolProps.

(* ----------------------------------------------------------------- *)
(** ** The list of section notes *)

Lemma arrayContains_push (a : list jstr) (x : jstr) : arrayContains (a ++ [x]) x = true.
Proof. apply arrayContains_In, in_or_app. right. now left. Qed.

Section SectionNotesProps.

Context {host : Host}.

(** What "Add Note" leaves in [sectionNotes]. *)
Lemma onAddNote_notes (env : Env) (w : World) :
  sectionNotes (settings (run onAddNote env w))
  = match noteSelection (user env) defaultNotePlaceholder (getMarkdownFiles (vault w)) with
    | Some note =>
        if arrayContains (sectionNotes (settings w)) (path note)
        then sectionNotes (settings w)
        else sectionNotes (settings w) ++ [path note]
    | None => sectionNotes (settings w)
    end.
Proof.
  unfold onAddNote. run_handler.
  destruct (noteSelection _ _ _) as [note|]; run_handler; [|reflexivity].
  destruct (arrayContains _ _); reflexivity.
Qed.

Lemma onRemoveNote_notes (i : nat) (env : Env) (w : World) :
  sectionNotes (settings (run (onRemoveNote i) env w))
  = spliceOne i (sectionNotes (settings w)).
Proof. reflexivity. Qed.

(** X10: a note added to the section notes lands in the last row, and
    removing that row gives the list there was before. *)
Theorem X10_add_then_remove_section_note (env env' : Env) (w : World) (note : TFile) :
  noteSelection (user env) defaultNotePlaceholder (getMarkdownFiles (vault w)) = Some note ->
  ~ In (path note) (sectionNotes (settings w)) ->
  let row := length (sectionNotes (settings w)) in
  nth_error (sectionNotes (settings (run onAddNote env w))) row = Some (path note)
  /\ sectionNotes (settings (run (onRemoveNote row) env' (run onAddNote env w)))
     = sectionNotes (settings w).
Proof.
  intros E Hnew row.
  assert (sectionNotes (settings (run onAddNote env w))
          = sectionNotes (settings w) ++ [path note]) as Ea.
  { rewrite onAddNote_notes, E.
    destruct (arrayContains _ _) eqn:Ec; [|reflexivity].
    apply arrayContains_In in Ec. contradiction. }
  split.
  - rewrite Ea. unfold row. rewrite nth_error_app2 by lia.
    now rewrite Nat.sub_diag.
  - rewrite onRemoveNote_notes, Ea. apply spliceOne_last.
Qed.

(** X11: "Add Note" is idempotent: doing it again with the same choice
    changes the list no further. *)
Theorem X11_add_section_note_twice (env : Env) (w : World) :
  sectionNotes (settings (run onAddNote env (run onAddNote env w)))
  = sectionNotes (settings (run onAddNote env w)).
Proof.
  rewrite (onAddNote_notes env (run onAddNote env w)).
  destruct (onSettingsEvent_frame ClickAddNote env w) as ((_ & _ & Ev & _) & _).
  cbn [onSettingsEvent] in Ev. rewrite Ev.
  rewrite (onAddNote_notes env w).
  destruct (noteSelection _ _ _) as [note|]; [|reflexivity].
  destruct (arrayContains (sectionNotes (settings w)) (path note)) eqn:Ec.
  - now rewrite Ec.
  - now rewrite arrayContains_push.
Qed.

(** X12: "Remove Note" of a row past the end removes nothing; of a row
    [i] in range it takes out that one path, the rows before it staying in
    place and the rows after it moving up by one; pools and separator are
    not touched. *)
Theorem X12_remove_section_note_row (i : nat) (env : Env) (w : World) :
  let before := sectionNotes (settings w) in
  let after := sectionNotes (settings (run (onRemoveNote i) env w)) in
  (length before <= i -> after = before)
  /\ (i < length before -> S (length after) = length before)
  /\ (forall j, nth_error after j
                = if j <? i then nth_error before j else nth_error before (S j))
  /\ characterPools (settings (run (onRemoveNote i) env w)) = characterPools (settings w)
  /\ sectionSeparator (settings (run (onRemoveNote i) env w))
     = sectionSeparator (settings w).
Proof.
  intros before after. unfold after. rewrite onRemoveNote_notes. fold before.
  split; [apply spliceOne_out_of_range|].
  split; [apply spliceOne_length|].
  split; [intro j; apply spliceOne_lookup | now split].
Qed.

End SectionNotesProps.

(* ----------------------------------------------------------------- *)
(** ** Section IDs *)

Lemma isIdChar_not_space (c : N) : isIdChar c = true -> isSpaceOrUnderscore c = false.
Proof.
  unfold isIdChar, isSpaceOrUnderscore, JsString.isWhiteSpace, hyphen, underscore.
  intro H. apply not_true_iff_false. intro G.
  repeat rewrite ?orb_true_iff, ?andb_true_iff, ?N.leb_le, ?N.eqb_eq in H.
  repeat rewrite ?orb_true_iff, ?andb_true_iff, ?N.leb_le, ?N.eqb_eq in G.
  lia.
Qed.

Lemma isBase36Char_isIdChar (c : N) : isBase36Char c = true -> isIdChar c = true.
Proof.
  unfold isBase36Char, isIdChar. intro H.
  apply orb_true_iff in H as [H | H]; rewrite H; cbn [orb]; now rewrite ?orb_true_r.
Qed.

Lemma trimStart_fixed (s : jstr) :
  forallb (fun c => negb (isSpaceOrUnderscore c)) s = true -> JsString.trimStart s = s.
Proof.
  destruct s as [|c s]; [reflexivity|]. cbn [forallb JsString.trimStart].
  intro H. apply andb_true_iff in H as [Hc _]. apply negb_true_iff in Hc.
  unfold isSpaceOrUnderscore in Hc. apply orb_false_iff in Hc as [Hc _].
  now rewrite Hc.
Qed.

Lemma trimEnd_no_space (s : jstr) :
  forallb (fun c => negb (isSpaceOrUnderscore c)) s = true -> JsString.trimEnd s = s.
Proof.
  induction s as [|c s IH]; [reflexivity|]. cbn [forallb JsString.trimEnd].
  intro H. apply andb_true_iff in H as [Hc Hs]. rewrite (IH Hs).
  apply negb_true_iff in Hc. unfold isSpaceOrUnderscore in Hc.
  apply orb_false_iff in Hc as [Hc _]. rewrite Hc. now destruct s.
Qed.

Lemma idChars_no_space (s : jstr) :
  forallb isIdChar s = true ->
  forallb (fun c => negb (isSpaceOrUnderscore c)) s = true.
Proof.
  intro H. apply forallb_forall. intros c Hc. apply negb_true_iff.
  apply isIdChar_not_space. rewrite forallb_forall in H. now apply H.
Qed.

Lemma filter_all {A : Type} (f : A -> bool) (l : list A) :
  forallb f l = true -> filter f l = l.
Proof.
  induction l as [|x l IH]; [reflexivity|]. cbn [forallb filter].
  intro H. apply andb_true_iff in H as [Hx Hl]. rewrite Hx. now rewrite IH.
Qed.

(** An ID made of [A-Za-z0-9-] only is its own normal form. *)
Lemma normalizeSectionId_fixed (s : jstr) :
  forallb isIdChar s = true -> normalizeSectionId s = s.
Proof.
  intro H. pose proof (idChars_no_space s H) as Hn.
  unfold normalizeSectionId, stripNonId, JsString.trim.
  rewrite (trimStart_fixed s Hn), (trimEnd_no_space s Hn), (replaceRuns_keep false s Hn).
  now apply filter_all.
Qed.

(** X13: normalization is idempotent: the ID it returns is left as it is
    when the user types it again. *)
Theorem X13_normalizeSectionId_idempotent (s : jstr) :
  normalizeSectionId (normalizeSectionId s) = normalizeSectionId s.
Proof. apply normalizeSectionId_fixed, normalizeSectionId_idChars. Qed.

Section SectionIdProps.

Context {host : Host}.

(** X14: whatever the user types, the section ID the command uses is made
    of [A-Za-z0-9-] only, so it cannot close or split the link it is put
    in; and it is not empty unless [Math.random()] is drawn and returns 0. *)
Theorem X14_sectionId_characters (typed : option jstr) (env : Env) (w : World) :
  validRandomValue (random env (randomCalls w)) ->
  forallb isIdChar (fst (resolveSectionId typed env w)) = true
  /\ (random env (randomCalls w) <> [] -> fst (resolveSectionId typed env w) <> []).
Proof.
  intro Hv.
  assert (forallb isIdChar (randomSectionId (random env (randomCalls w))) = true) as Hr.
  { apply forallb_forall. intros c Hc. apply isBase36Char_isIdChar.
    pose proof (randomSectionId_alphabet _ Hv) as Ha.
    rewrite forallb_forall in Ha. now apply Ha. }
  assert (random env (randomCalls w) <> [] ->
          randomSectionId (random env (randomCalls w)) <> []) as Hne.
  { intros Hd E. apply (f_equal (@length N)) in E.
    rewrite randomSectionId_length in E.
    destruct (random env (randomCalls w)); [contradiction | simpl in E; lia]. }
  destruct typed as [s|]; [|now split].
  rewrite resolveSectionId_spec.
  pose proof (normalizeSectionId_idChars s) as Hs.
  destruct (normalizeSectionId s) as [|c r]; cbn [fst]; split; try assumption.
  intros _. discriminate.
Qed.

End SectionIdProps.

(* ----------------------------------------------------------------- *)
(** ** Path shortener, in general *)

(** X15: [shortenNotePath] depends on the number of notes with the base
    name of the target only.  Below two (none, when the target is not among
    the notes) it returns the base name; from two on it returns the path
    without its last three code units, whatever the extension is, hence the
    empty string for a path of three code units or fewer. *)
Theorem X15_shortenNotePath_general (note : TFile) (vault : Vault) :
  shortenNotePath note vault
  = if 2 <=? sameBasenameCount note (getMarkdownFiles vault)
    then firstn (length (path note) - 3) (path note)
    else basename note.
Proof.
  unfold shortenNotePath. rewrite shortenNotePath_loop_spec by lia.
  cbn [Nat.add]. change (2 <=? ?n) with (1 <? n).
  destruct (1 <? _); [|reflexivity].
  unfold JsString.slice, JsString.sliceIndex. cbn [Z.ltb Z.compare].
  replace (Nat.min (Z.to_nat 0) (length (path note))) with 0 by reflexivity.
  replace (Z.to_nat (Z.max (Z.of_nat (length (path note)) + -3) 0))
    with (length (path note) - 3) by lia.
  now rewrite Nat.sub_0_r.
Qed.

(* ----------------------------------------------------------------- *)
(** ** What the commands resolve and what they leave alone *)

Lemma In_firstn {A : Type} (n : nat) (l : list A) (x : A) : In x (firstn n l) -> In x l.
Proof.
  revert n; induction l as [|y l IH]; intros [|n] H; simpl in *; try tauto.
  destruct H as [-> | H]; [now left | right; eauto].
Qed.

Lemma getFileByPath_Some (v : Vault) (p : jstr) (f : TFile) :
  getFileByPath v p = Some f -> path f = p /\ In f (getFiles v).
Proof.
  unfold getFileByPath. intro H. apply find_some in H as [Hin E].
  apply eqb_eq in E. now split.
Qed.

(** [vault.process] keeps the files and rewrites no other note. *)
Lemma process_files (v : Vault) (file : TFile) (fn : jstr -> jstr) :
  getFiles (process v file fn) = getFiles v.
Proof.
  unfold getFiles, process. cbn [entries]. rewrite map_map. apply map_ext.
  intro e. now destruct (sameFile (fst e) file).
Qed.

Lemma process_others (v : Vault) (file : TFile) (fn : jstr -> jstr) :
  filter (fun e => negb (sameFile (fst e) file)) (entries (process v file fn))
  = filter (fun e => negb (sameFile (fst e) file)) (entries v).
Proof.
  unfold process. cbn [entries]. induction (entries v) as [|e l IH]; [reflexivity|].
  cbn [map filter]. destruct (sameFile (fst e) file) eqn:E; cbn [fst negb].
  - rewrite E. exact IH.
  - rewrite E. cbn [negb]. now rewrite IH.
Qed.

Lemma trimEnd_app_space (s : jstr) (c : N) :
  JsString.isWhiteSpace c = true -> JsString.trimEnd (s ++ [c]) = JsString.trimEnd s.
Proof.
  intro Hc. induction s as [|x s IH]; cbn [app JsString.trimEnd].
  - now rewrite Hc.
  - now rewrite IH.
Qed.

Section ResolutionProps.

Context {host : Host}.

Lemma textSelection_In (u : User) (placeholder : jstr) (suggestions : list jstr)
    (s : jstr) :
  textSelection u placeholder suggestions = Some s -> In s suggestions.
Proof.
  unfold textSelection. destruct (chooseText u placeholder suggestions) as [[q row]|];
    [|discriminate].
  intro H. apply nth_error_In in H.
  rewrite TextSuggestModal_getSuggestions_spec in H.
  apply filter_In in H as [H _]. now apply In_firstn in H.
Qed.

Lemma noteSelection_In (u : User) (placeholder : jstr) (suggestions : list TFile)
    (f : TFile) :
  noteSelection u placeholder suggestions = Some f -> In f suggestions.
Proof.
  unfold noteSelection. destruct (chooseNote u placeholder suggestions) as [[q row]|];
    [|discriminate].
  intro H. apply nth_error_In in H.
  rewrite NoteSuggestModal_getSuggestions_spec in H.
  apply filter_In in H as [H _]. now apply In_firstn in H.
Qed.

(** X16: the note a command works on is always a file of the vault.  For
    the character commands its path is a member of an enabled pool; for the
    section command it is one of the section notes, or, when there are
    none, one of the markdown files. *)
Theorem X16_resolved_target_in_vault (env : Env) (w : World) (target : TFile) :
  (fst (promptForCharacter (characterPools (settings w)) env w) = Some target ->
     In target (getFiles (vault w))
     /\ In (path target) (activeMembers (characterPools (settings w))))
  /\ (resolveSectionTarget env w = Some target ->
      In target (getFiles (vault w))
      /\ (sectionNotes (settings w) <> [] -> In (path target) (sectionNotes (settings w)))
      /\ (sectionNotes (settings w) = [] -> In target (getMarkdownFiles (vault w)))).
Proof.
  split.
  - unfold promptForCharacter.
    destruct (length (getActiveCharNotes (characterPools (settings w))) =? 0);
      [discriminate|].
    run_handler.
    destruct (textSelection (user env) characterPlaceholder
                (getActiveCharNotes (characterPools (settings w)))) as [sel|] eqn:Es;
      [|discriminate].
    destruct (JsString.truthy sel); [|discriminate]. run_handler.
    destruct (getFileByPath (vault w) sel) as [t|] eqn:Ef; [|discriminate].
    cbn [fst]. intros [= ->]. apply getFileByPath_Some in Ef as [Ep Hin].
    split; [exact Hin|]. rewrite Ep, <- getActiveCharNotes_spec.
    now apply (textSelection_In _ _ _ _ Es).
  - unfold resolveSectionTarget.
    destruct (sectionNotes (settings w)) as [|n l] eqn:En; cbn [length Nat.eqb].
    + intro E. apply noteSelection_In in E. split; [|split].
      * unfold getMarkdownFiles in E. now apply filter_In in E.
      * contradiction.
      * intros _. exact E.
    + destruct (textSelection (user env) targetPlaceholder (n :: l)) as [sel|] eqn:Es;
        [|discriminate].
      destruct (JsString.truthy sel); [|discriminate].
      intro Ef. apply getFileByPath_Some in Ef as [Ep Hin].
      split; [exact Hin | split].
      * intros _. rewrite Ep. now apply (textSelection_In _ _ _ _ Es).
      * discriminate.
Qed.

(** X17: a path of the settings that names no file of the vault stops the
    command at "Note not found.": the modal was opened, the notice shown,
    and nothing else happened. *)
Theorem X17_stale_path_stops_command (env : Env) (w : World) (selected : jstr) :
  selected <> [] ->
  getFileByPath (vault w) selected = None ->
  (textSelection (user env) characterPlaceholder
     (getActiveCharNotes (characterPools (settings w))) = Some selected ->
   let shown := [OpenTextSuggest characterPlaceholder
                   (getActiveCharNotes (characterPools (settings w)));
                 Notice (js "Note not found.")] in
   run addCharacterReference env w = afterEvents shown w
   /\ run addCharacterDiag env w = afterEvents shown w)
  /\ (textSelection (user env) targetPlaceholder (sectionNotes (settings w))
      = Some selected ->
      sectionNotes (settings w) <> [] ->
      run addSectionWikilink env w
      = afterEvents [OpenTextSuggest targetPlaceholder (sectionNotes (settings w));
                     Notice (js "Note not found.")] w).
Proof.
  intros Hne Hf. destruct selected as [|c sel]; [contradiction|]. split.
  - intros Es shown.
    assert (promptForCharacter (characterPools (settings w)) env w
            = (None, afterEvents shown w)) as Ep.
    { unfold promptForCharacter.
      pose proof (textSelection_In _ _ _ _ Es) as Hin.
      destruct (getActiveCharNotes (characterPools (settings w))) as [|a l];
        [contradiction|].
      cbn [length Nat.eqb]. run_handler. rewrite Es. cbn [JsString.truthy].
      run_handler. rewrite Hf. run_handler. unfold afterEvents, shown.
      now rewrite <- app_assoc. }
    rewrite addCharacterReference_abort, addCharacterDiag_abort by now rewrite Ep.
    rewrite Ep. now split.
  - intros Es Hn. unfold addSectionWikilink. run_handler.
    destruct (sectionNotes (settings w)) as [|n l]; [contradiction|].
    cbn [length Nat.eqb]. run_handler. rewrite Es. cbn [JsString.truthy].
    run_handler. rewrite Hf. unfold addSectionWikilink_to. run_handler.
    unfold afterEvents. now rewrite <- app_assoc.
Qed.

(** X18: before the user types, the query is empty and a suggestion modal
    lists the first thousand suggestions as they are, in their order
    (given that the lower case of the empty string is empty). *)
Theorem X18_empty_query_lists_all :
  toLowerCase [] = [] ->
  (forall suggestions : list jstr,
      TextSuggestModal_getSuggestions suggestions [] = firstn 1000 suggestions)
  /\ (forall suggestions : list TFile,
        NoteSuggestModal_getSuggestions suggestions [] = firstn 1000 suggestions).
Proof.
  intro E.
  assert (forall text, matchesQuery text [] = true) as Hm.
  { intro text. unfold matchesQuery. rewrite E. apply contains_spec.
    now exists [], (toLowerCase text). }
  change 1000 with suggestionLimit. split; intro suggestions.
  - rewrite TextSuggestModal_getSuggestions_spec. apply filter_all.
    apply forallb_forall. intros s _. apply Hm.
  - rewrite NoteSuggestModal_getSuggestions_spec. apply filter_all.
    apply forallb_forall. intros f _. apply Hm.
Qed.

(** X19: only the section command writes to the vault or draws a random
    number; no command changes the file of the view; and the ellipsis
    command opens no modal and shows no notice. *)
Theorem X19_command_footprint (c : Command) (env : Env) (w : World) :
  viewFile (run (editorCallback c) env w) = viewFile w
  /\ (c <> AddSectionWikilink ->
      vault (run (editorCallback c) env w) = vault w
      /\ randomCalls (run (editorCallback c) env w) = randomCalls w)
  /\ (c = AddDramaticEllipsis -> uiLog (run (editorCallback c) env w) = uiLog w).
Proof.
  destruct c; cbn [editorCallback].
  - split; [|split; [contradiction | discriminate]].
    destruct (resolveSectionTarget env w) as [t|] eqn:E.
    + now destruct (addSectionWikilink_spec env w t E) as (_ & _ & _ & _ & Hv).
    + now destruct (addSectionWikilink_abort env w E) as (_ & Hv & _).
  - split; [|split; [intros _ | discriminate]];
      unfold addCharacterReference, promptForCharacter, promptForAlias;
      each_branch; now repeat split.
  - split; [|split; [intros _ | discriminate]];
      unfold addCharacterDiag, promptForCharacter, promptForAlias;
      each_branch; now repeat split.
  - now repeat split.
Qed.

(** X20: the section command never adds or removes a file and rewrites no
    note but its target. *)
Theorem X20_section_command_vault_footprint (env : Env) (w : World) :
  getFiles (vault (run addSectionWikilink env w)) = getFiles (vault w)
  /\ (resolveSectionTarget env w = None -> vault (run addSectionWikilink env w) = vault w)
  /\ (forall target,
        resolveSectionTarget env w = Some target ->
        filter (fun e => negb (sameFile (fst e) target))
               (entries (vault (run addSectionWikilink env w)))
        = filter (fun e => negb (sameFile (fst e) target)) (entries (vault w))).
Proof.
  destruct (resolveSectionTarget env w) as [t|] eqn:E.
  - destruct (addSectionWikilink_spec env w t E) as (_ & Hv & _). rewrite Hv.
    split; [apply process_files|]. split; [discriminate|].
    intros target [= <-]. apply process_others.
  - destruct (addSectionWikilink_abort env w E) as (_ & _ & Hv & _). rewrite Hv.
    split; [reflexivity|]. split; [reflexivity | discriminate].
Qed.

End ResolutionProps.

(* ----------------------------------------------------------------- *)
(** ** Appending sections one after the other *)

Lemma section_line_trimmed (selection sectionId : jstr) :
  forallb isIdChar sectionId = true ->
  JsString.trimEnd (selection ++ js " ^" ++ sectionId ++ LF)
  = selection ++ js " ^" ++ sectionId.
Proof.
  intro Hid.
  replace (selection ++ js " ^" ++ sectionId ++ LF)
    with ((selection ++ js " ^" ++ sectionId) ++ [10%N])
    by (now rewrite <- !app_assoc).
  rewrite trimEnd_app_space by reflexivity.
  destruct (last_cases sectionId) as [-> | (r & c & ->)].
  - rewrite app_nil_r.
    change (js " ^") with ([32%N] ++ [94%N]). rewrite app_assoc.
    now apply trimEnd_fixed.
  - rewrite !app_assoc. apply trimEnd_fixed.
    rewrite forallb_app in Hid. apply andb_true_iff in Hid as [_ Hc].
    cbn [forallb] in Hc. rewrite andb_true_r in Hc.
    apply isIdChar_not_space in Hc. unfold isSpaceOrUnderscore in Hc.
    now apply orb_false_iff in Hc.
Qed.

(** X21: two sections appended to an empty note that is not the open one
    are separated by the separator alone: the line feed that ended the
    first is trimmed before the second is added.  In the open note the
    line feed stays in front of the separator. *)
Theorem X21_append_two_sections (target : TFile) (file : option TFile)
    (separator selection1 id1 selection2 id2 : jstr) :
  forallb isIdChar id1 = true ->
  appendSection target file separator selection2 id2
    (appendSection target file separator selection1 id1 [])
  = if notViewFile target file
    then selection1 ++ js " ^" ++ id1 ++ separator ++ selection2 ++ js " ^" ++ id2 ++ LF
    else selection1 ++ js " ^" ++ id1 ++ LF ++ separator
           ++ selection2 ++ js " ^" ++ id2 ++ LF.
Proof.
  intro Hid.
  assert (appendSection target file separator selection1 id1 []
          = selection1 ++ js " ^" ++ id1 ++ LF) as ->.
  { unfold appendSection. now destruct (notViewFile target file). }
  unfold appendSection. destruct (notViewFile target file).
  - rewrite (section_line_trimmed selection1 id1 Hid).
    destruct (selection1 ++ js " ^" ++ id1) eqn:E.
    + destruct selection1; discriminate.
    + cbn [JsString.truthy negb]. rewrite <- E. now rewrite <- !app_assoc.
  - destruct (selection1 ++ js " ^" ++ id1 ++ LF) eqn:E.
    + destruct selection1; discriminate.
    + cbn [JsString.truthy negb]. rewrite <- E. now rewrite <- !app_assoc.
Qed.

(* ================================================================= *)
(** * The further properties at work on a text buffer *)

Lemma X1_reload_restores_settings_witness :
  sectionNotes (settings changedWorld) = [js "Test Note"; js "Cast/Hero.md"]
  /\ settings changedWorld <> DEFAULT_SETTINGS
  /\ settings (run loadSettings castEnv changedWorld) = settings changedWorld.
Proof.
  split; [reflexivity|]. split; [discriminate|].
  apply (proj2 (@X1_reload_restores_settings TextBuffer.host changedWorld castEnv
                  (reach_settings castEnv installedWorld ClickAddNote
                     (reach_install castEnv castWorld eq_refl)))).
Defined.

Lemma X5_separator_field_stable_witness :
  unescapeNewlines (separatorFieldValue (settings installedWorld))
  = sectionSeparator DEFAULT_SETTINGS.
Proof.
  apply (proj1 (@X5_separator_field_stable TextBuffer.host installedWorld
                  (reach_install castEnv castWorld eq_refl))).
Defined.

Lemma X7_toggle_pool_active_list_witness :
  getActiveCharNotes
    (characterPools (settings (run (onTogglePool 0 false) castEnv castWorld))) = [].
Proof.
  apply (@X7_toggle_pool_active_list TextBuffer.host 0 false castEnv castWorld
           (mkCharacterPool (js "Cast") [js "Cast/Hero.md"] true)).
  reflexivity.
Defined.

Lemma X8_remove_pool_needs_confirmation_witness :
  settings (run (onRemovePool 0) castEnv castWorld) = settings castWorld
  /\ dataFile (run (onRemovePool 0) castEnv castWorld) = dataFile castWorld.
Proof.
  apply (proj1 (@X8_remove_pool_needs_confirmation TextBuffer.host 0 castEnv castWorld
                  (mkCharacterPool (js "Cast") [js "Cast/Hero.md"] true) eq_refl)).
  discriminate.
Defined.

Lemma X9_add_character_no_membership_check_witness :
  nth_error (characterPools (settings (run (onAddCharacter 0) castEnv castWorld))) 0
  = Some (mkCharacterPool (js "Cast") [js "Cast/Hero.md"; js "Cast/Hero.md"] true).
Proof.
  apply (proj1 (@X9_add_character_no_membership_check TextBuffer.host 0 castEnv castWorld
                  (mkCharacterPool (js "Cast") [js "Cast/Hero.md"] true) heroNote
                  eq_refl eq_refl)).
Defined.

Lemma X10_add_then_remove_section_note_witness :
  sectionNotes (settings (run (onRemoveNote 1) closingEnv (run onAddNote castEnv castWorld)))
  = [js "Villain.md"].
Proof.
  apply (proj2 (@X10_add_then_remove_section_note TextBuffer.host castEnv closingEnv
                  castWorld heroNote eq_refl
                  ltac:(intros [H | []]; discriminate H))).
Defined.

Lemma X14_sectionId_characters_witness :
  forallb isIdChar (fst (resolveSectionId None castEnv castWorld)) = true.
Proof.
  apply (proj1 (@X14_sectionId_characters TextBuffer.host None castEnv castWorld
                  ltac:(repeat constructor))).
Defined.

Lemma X17_stale_path_stops_command_witness :
  run addSectionWikilink castEnv installedWorld
  = afterEvents [OpenTextSuggest targetPlaceholder [js "Test Note"];
                 Notice (js "Note not found.")] installedWorld.
Proof.
  apply (proj2 (@X17_stale_path_stops_command TextBuffer.host castEnv installedWorld
                  (js "Test Note") ltac:(discriminate) eq_refl)).
  - reflexivity.
  - discriminate.
Defined.

Lemma X18_empty_query_lists_all_witness :
  @TextSuggestModal_getSuggestions TextBuffer.host [js "B"; js "a"] [] = [js "B"; js "a"].
Proof.
  apply (proj1 (@X18_empty_query_lists_all TextBuffer.host eq_refl)).
Defined.

Lemma X21_append_two_sections_witness :
  appendSection villainNote None (js "--") (js "Two") (js "b")
    (appendSection villainNote None (js "--") (js "One") (js "a") [])
  = js "One ^a--Two ^b" ++ LF.
Proof.
  apply (X21_append_two_sections villainNote None (js "--") (js "One") (js "a")
           (js "Two") (js "b")).
  reflexivity.
Defined.
